(** * latextotext: the LaTeX preview backend ([latex.py])

    A shallow embedding of [latex.py] and the properties of its
    normalisation and injection pipeline.

    Python's [str] is a sequence of Unicode code points; it is modelled as a
    list of code points.  The library calls the script relies on
    ([str.strip], [in], [str.replace], [json.dumps]) are modelled after
    CPython; the file system, standard input, the temporary-file factory and
    the browser launcher are oracles of an explicit [World], and every effect
    of a run is recorded in a trace. *)

From Stdlib Require Import List NArith Bool Lia String Ascii Arith.
Import ListNotations.
Local Open Scope N_scope.

(** ** Strings *)

Definition char := N.
Definition str := list char.

(** An ASCII literal as a Python string. *)
Definition lit (s : string) : str := map N_of_ascii (list_ascii_of_string s).

(** Code points a Python [str] can hold. *)
Definition valid_str (s : str) : Prop := Forall (fun c => c < 0x110000) s.

Definition quote : char := 34.
Definition backslash : char := 92.
Definition newline : char := 10.

(** [Py_UNICODE_ISSPACE]: the characters [str.strip()] removes. *)
Definition is_space (c : char) : bool :=
  ((9 <=? c) && (c <=? 13)) || ((28 <=? c) && (c <=? 32))
  || (c =? 133) || (c =? 160) || (c =? 5760)
  || ((8192 <=? c) && (c <=? 8202))
  || (c =? 8232) || (c =? 8233) || (c =? 8239) || (c =? 8287)
  || (c =? 12288).

Fixpoint lstrip (s : str) : str :=
  match s with
  | [] => []
  | c :: r => if is_space c then lstrip r else s
  end.

Definition rstrip (s : str) : str := rev (lstrip (rev s)).

(** [s.strip()] *)
Definition strip (s : str) : str := rstrip (lstrip s).

(** [s.startswith(p)] *)
Fixpoint startswith (p s : str) : bool :=
  match p, s with
  | [], _ => true
  | _ :: _, [] => false
  | a :: p', b :: s' => (a =? b) && startswith p' s'
  end.

(** [needle in hay] *)
Fixpoint contains (needle hay : str) : bool :=
  startswith needle hay
  || match hay with
     | [] => false
     | _ :: r => contains needle r
     end.

(** Number of positions of [hay] at which [needle] starts. *)
Fixpoint occurrences (needle hay : str) : nat :=
  ((if startswith needle hay then 1 else 0)
   + match hay with
     | [] => 0
     | _ :: r => occurrences needle r
     end)%nat.

(** [s.replace(old, new)] for a non-empty [old]: the scan goes left to
    right; at a match it emits [new] and skips the rest of the match. *)
Fixpoint replace_from (old new : str) (skip : nat) (s : str) : str :=
  match s with
  | [] => []
  | c :: r =>
      match skip with
      | S k => replace_from old new k r
      | O =>
          if startswith old s
          then new ++ replace_from old new (List.length old - 1) r
          else c :: replace_from old new 0 r
      end
  end.

(** [s.replace(old, new)]; an empty [old] matches before every character
    and at the end. *)
Definition replace (old new s : str) : str :=
  match old with
  | [] => new ++ flat_map (fun c => c :: new) s
  | _ :: _ => replace_from old new 0 s
  end.

(** ** [normalize_latex] *)

Definition markers : list str :=
  [lit "\("; lit "\)"; lit "$$"; lit "\["; lit "\]"].

Definition normalize_latex (source : str) : str :=
  let stripped := strip source in
  match stripped with
  | [] => []
  | _ :: _ =>
      if existsb (fun marker => contains marker stripped) markers
      then stripped
      else lit "$$" ++ [newline] ++ stripped ++ [newline] ++ lit "$$"
  end.

(** ** [json.dumps] on a string (default [ensure_ascii=True]) *)

Definition hexdigit (d : N) : char := if d <? 10 then 48 + d else 87 + d.

(** ['\\u{0:04x}'.format(n)] for [n < 0x10000] *)
Definition u_escape (n : N) : str :=
  [backslash; 117;
   hexdigit (n / 4096 mod 16); hexdigit (n / 256 mod 16);
   hexdigit (n / 16 mod 16); hexdigit (n mod 16)].

(** [ESCAPE_ASCII] / [ESCAPE_DCT] and the [replace] callback of
    [py_encode_basestring_ascii]. *)
Definition escape_char (c : char) : str :=
  if c =? 34 then [backslash; 34]
  else if c =? 92 then [backslash; 92]
  else if c =? 10 then [backslash; 110]
  else if c =? 13 then [backslash; 114]
  else if c =? 9 then [backslash; 116]
  else if c =? 8 then [backslash; 98]
  else if c =? 12 then [backslash; 102]
  else if (32 <=? c) && (c <=? 126) then [c]
  else if c <? 0x10000 then u_escape c
  else
    let n := c - 0x10000 in
    let s1 := N.lor 0xd800 (N.land (N.shiftr n 10) 0x3ff) in
    let s2 := N.lor 0xdc00 (N.land n 0x3ff) in
    u_escape s1 ++ u_escape s2.

Definition json_dumps (s : str) : str :=
  [quote] ++ flat_map escape_char s ++ [quote].

(** ** Decoding a JSON string literal ([json.decoder.py_scanstring]) *)

Definition hexval (c : char) : option N :=
  if (48 <=? c) && (c <=? 57) then Some (c - 48)
  else if (97 <=? c) && (c <=? 102) then Some (c - 87)
  else if (65 <=? c) && (c <=? 70) then Some (c - 55)
  else None.

(** [_decode_uXXXX] on the four characters after [\u] *)
Definition decode_uXXXX (a b c d : char) : option N :=
  match hexval a, hexval b, hexval c, hexval d with
  | Some x, Some y, Some z, Some w => Some (((x * 16 + y) * 16 + z) * 16 + w)
  | _, _, _, _ => None
  end.

(** The [BACKSLASH] table *)
Definition unescape (e : char) : option char :=
  if e =? 34 then Some 34
  else if e =? 92 then Some 92
  else if e =? 47 then Some 47
  else if e =? 98 then Some 8
  else if e =? 102 then Some 12
  else if e =? 110 then Some 10
  else if e =? 114 then Some 13
  else if e =? 116 then Some 9
  else None.

Definition push (c : char) (r : option (str * str)) : option (str * str) :=
  match r with
  | Some (v, rest) => Some (c :: v, rest)
  | None => None
  end.

(** [scanstring s] reads a string literal whose opening quote has been
    consumed; it gives the decoded value and the text after the closing
    quote, or [None] where [py_scanstring] raises. *)
Fixpoint scanstring (s : str) : option (str * str) :=
  match s with
  | [] => None
  | c :: r =>
      if c =? 34 then Some ([], r)
      else if c =? 92 then
        match r with
        | [] => None
        | e :: r1 =>
            if e =? 117 then
              match r1 with
              | h1 :: h2 :: h3 :: h4 :: r2 =>
                  match decode_uXXXX h1 h2 h3 h4 with
                  | None => None
                  | Some uni =>
                      if (0xd800 <=? uni) && (uni <=? 0xdbff) then
                        match r2 with
                        | b :: u :: r3 =>
                            if (b =? 92) && (u =? 117) then
                              match r3 with
                              | k1 :: k2 :: k3 :: k4 :: r4 =>
                                  match decode_uXXXX k1 k2 k3 k4 with
                                  | None => None
                                  | Some uni2 =>
                                      if (0xdc00 <=? uni2) && (uni2 <=? 0xdfff)
                                      then push (0x10000 +
                                                 N.lor (N.shiftl (uni - 0xd800) 10)
                                                       (uni2 - 0xdc00))
                                                (scanstring r4)
                                      else push uni (scanstring r2)
                                  end
                              | _ => None
                              end
                            else push uni (scanstring r2)
                        | _ => push uni (scanstring r2)
                        end
                      else push uni (scanstring r2)
                  end
              | _ => None
              end
            else
              match unescape e with
              | Some ch => push ch (scanstring r1)
              | None => None
              end
        end
      else if c <? 32 then None
      else push c (scanstring r)
  end.

(** The JSON string literal that starts at offset [pos] of [doc]. *)
Definition json_string_at (pos : nat) (doc : str) : option (str * str) :=
  match skipn pos doc with
  | c :: r => if c =? 34 then scanstring r else None
  | [] => None
  end.

(** ** [default_sample] and [build_page] *)

Definition default_sample : str :=
  lit "E = mc^2" ++ [newline]
  ++ lit "\int_0^{\infty} e^{-x^2}\,dx = \frac{\sqrt{\pi}}{2}" ++ [newline]
  ++ lit "\textbf{" ++ [0x41c; 0x430; 0x442; 0x440; 0x438; 0x446; 0x430]
  ++ lit ": }\begin{bmatrix}1 & 0 \ 0 & 1\end{bmatrix}".

Definition PRELOAD : str := lit "__PRELOAD__".
Definition SAMPLE : str := lit "__SAMPLE__".

(** The expression [build_page] returns, as a function of the template
    text it has read. *)
Definition build_page_from (latex template : str) : str :=
  replace SAMPLE (json_dumps default_sample)
    (replace PRELOAD (json_dumps latex) template).

(** ** The environment and the effects of a run *)

Record Path := mkPath { path_str : str }.

(** An exception, with the text [str(exc)] gives.  [EnvError] stands for
    whatever a call of the environment raises ([OSError],
    [UnicodeDecodeError], [ValueError], ...); all of them are caught by
    [except Exception]. *)
Inductive exn :=
| FileNotFoundError (msg : str)
| EnvError (msg : str).

Definition exn_str (e : exn) : str :=
  match e with
  | FileNotFoundError m => m
  | EnvError m => m
  end.

Inductive result (A : Type) :=
| Ok (a : A)
| Raise (e : exn).
Arguments Ok {A} a.
Arguments Raise {A} e.

(** What the environment answers.  A call returns a value or raises an
    exception that [except Exception] catches.  [Path.is_file] is taken
    with the answer it gives (it answers [False] for a path it cannot
    find), and [Path.as_uri] is called on the absolute path of the
    temporary file, where it returns. *)
Record World := {
  w_is_file : Path -> bool;                      (* Path.is_file() *)
  w_read_text : Path -> result str;              (* Path.read_text("utf-8") *)
  w_stdin : result str;                          (* sys.stdin.read() *)
  w_template_path : Path;      (* Path(__file__).with_name("index.html") *)
  w_tempfile : result Path;    (* NamedTemporaryFile(delete=False, ...) *)
  w_write_text : Path -> str -> result unit;     (* Path.write_text *)
  w_as_uri : Path -> str;                        (* Path.as_uri() *)
  w_browser_open : str -> result bool            (* webbrowser.open *)
}.

Inductive event :=
| EvIsFile (p : Path)
| EvReadText (p : Path)
| EvStdinRead
| EvTempFile
| EvWriteText (p : Path) (data : str)
| EvBrowserOpen (uri : str)
| EvPrintOut (line : str)
| EvPrintErr (line : str).

Definition IO (A : Type) : Type := World -> list event -> result A * list event.

Definition ret {A} (a : A) : IO A := fun _ tr => (Ok a, tr).
Definition raise {A} (e : exn) : IO A := fun _ tr => (Raise e, tr).
Definition bind {A B} (m : IO A) (k : A -> IO B) : IO B :=
  fun w tr =>
    match m w tr with
    | (Ok a, tr') => k a w tr'
    | (Raise e, tr') => (Raise e, tr')
    end.
Definition try_except {A} (m : IO A) (h : exn -> IO A) : IO A :=
  fun w tr =>
    match m w tr with
    | (Ok a, tr') => (Ok a, tr')
    | (Raise e, tr') => h e w tr'
    end.

Notation "x <- m ;; k" := (bind m (fun x => k))
  (at level 61, m at next level, right associativity).
Notation "m ;;; k" := (bind m (fun _ => k))
  (at level 61, right associativity).

(** A call of the environment: recorded, then answered by the world. *)
Definition call {A} (ev : event) (answer : World -> result A) : IO A :=
  fun w tr => (answer w, tr ++ [ev]).

Definition is_file (p : Path) : IO bool :=
  call (EvIsFile p) (fun w => Ok (w_is_file w p)).
Definition read_text (p : Path) : IO str :=
  call (EvReadText p) (fun w => w_read_text w p).
Definition stdin_read : IO str :=
  call EvStdinRead w_stdin.
Definition named_temporary_file : IO Path :=
  call EvTempFile w_tempfile.
Definition write_text (p : Path) (data : str) : IO unit :=
  call (EvWriteText p data) (fun w => w_write_text w p data).
Definition as_uri (p : Path) : IO str :=
  fun w tr => (Ok (w_as_uri w p), tr).
Definition webbrowser_open (uri : str) : IO bool :=
  call (EvBrowserOpen uri) (fun w => w_browser_open w uri).
(** [print(line)] and [print(line, file=sys.stderr)] *)
Definition print_out (line : str) : IO unit :=
  call (EvPrintOut line) (fun _ => Ok tt).
Definition print_err (line : str) : IO unit :=
  call (EvPrintErr line) (fun _ => Ok tt).

(** ** The script *)

(** What [parse_args] returns. *)
Record Namespace := {
  file : option Path;
  text : option str;
  open : bool
}.

Definition load_latex (args : Namespace) : IO str :=
  match file args with
  | Some f =>
      b <- is_file f ;;
      if negb b
      then raise (FileNotFoundError (lit "No such file: " ++ path_str f))
      else read_text f
  | None =>
      match text args with
      | Some (c :: t) => ret (c :: t)
      | _ =>
          data <- stdin_read ;;
          match strip data with
          | [] => ret []
          | _ :: _ => ret data
          end
      end
  end.

Definition build_page (latex : str) (template_path : Path) : IO str :=
  template <- read_text template_path ;;
  ret (build_page_from latex template).

Definition write_and_open (html : str) (should_open : bool) : IO Path :=
  path <- named_temporary_file ;;
  write_text path html ;;;
  (if should_open
   then uri <- as_uri path ;; webbrowser_open uri ;;; ret tt
   else ret tt) ;;;
  ret path.

Definition main_try (args : Namespace) : IO unit :=
  raw_latex <- load_latex args ;;
  let normalized := normalize_latex raw_latex in
  template_path <- (fun w tr => (Ok (w_template_path w), tr)) ;;
  b <- is_file template_path ;;
  (if negb b
   then raise (FileNotFoundError
                 (lit "Template not found: " ++ path_str template_path))
   else ret tt) ;;;
  html <- build_page normalized template_path ;;
  path <- write_and_open html (open args) ;;
  print_out (lit "Preview written to " ++ path_str path).

(** How a run ends: what it did, and the exit status of the process. *)
Record Outcome := {
  trace : list event;
  status : N
}.

(** The [try] block of [main] and its handler; the value is the exit
    status. *)
Definition main_io (args : Namespace) : IO N :=
  try_except
    (main_try args ;;; ret 0)
    (fun exc => print_err (lit "Error: " ++ exn_str exc) ;;; ret 1).

Definition main (args : Namespace) (w : World) : Outcome :=
  match main_io args w [] with
  | (Ok code, tr) => {| trace := tr; status := code |}
  | (Raise _, tr) => {| trace := tr; status := 1 |}
  end.

(** ** Vocabulary of the statements *)

(** [tok] occurs somewhere in [t]. *)
Definition occurs (tok t : str) : Prop := exists a b, t = a ++ tok ++ b.

Definition hd_space (t : str) : bool :=
  match t with
  | [] => false
  | c :: _ => is_space c
  end.

(** Neither the first nor the last character is white space. *)
Definition no_outer_space (t : str) : Prop :=
  hd_space t = false /\ hd_space (rev t) = false.

(** Some occurrence of [old] in [s1 ++ s2] starts inside [s1] and ends
    inside [s2]. *)
Fixpoint straddles (old s1 s2 : str) : bool :=
  match s1 with
  | [] => false
  | _ :: r =>
      ((List.length s1 <? List.length old)%nat && startswith old (s1 ++ s2))
      || straddles old r s2
  end.

Definition is_high (c : N) : bool := (0xd800 <=? c) && (c <=? 0xdbff).
Definition is_low (c : N) : bool := (0xdc00 <=? c) && (c <=? 0xdfff).

(** No high surrogate is directly followed by a low one.  Text decoded
    from UTF-8, or from the command line, never has such a pair. *)
Fixpoint no_surrogate_pair (s : str) : bool :=
  match s with
  | [] => true
  | a :: r =>
      match r with
      | [] => true
      | b :: _ => negb (is_high a && is_low b) && no_surrogate_pair r
      end
  end.

(** The look-ahead of [scanstring] after a high surrogate: does the text
    go on with the escape of a low surrogate (or a broken escape)? *)
Definition starts_low_escape (r2 : str) : bool :=
  match r2 with
  | b :: u :: r3 =>
      if (b =? 92) && (u =? 117) then
        match r3 with
        | k1 :: k2 :: k3 :: k4 :: _ =>
            match decode_uXXXX k1 k2 k3 k4 with
            | None => true
            | Some uni2 => is_low uni2
            end
        | _ => true
        end
      else false
  | _ => false
  end.

(** The characters escape sequences are made of. *)
Definition is_escape_output (x : char) : bool :=
  (x =? 92) || (x =? 34) || (x =? 110) || (x =? 114) || (x =? 116)
  || (x =? 98) || (x =? 102) || (x =? 117)
  || ((48 <=? x) && (x <=? 57)) || ((97 <=? x) && (x <=? 102)).

(** The shapes [escape_char] produces *)
Inductive escape_shape (c : char) : str -> Prop :=
| shape_short (k : char) :
    In (c, k) [(34, 34); (92, 92); (10, 110); (13, 114); (9, 116);
               (8, 98); (12, 102)] ->
    escape_shape c [92; k]
| shape_plain :
    c <> 34 -> c <> 92 -> 32 <= c -> c <= 126 -> escape_shape c [c]
| shape_u :
    c < 0x10000 -> (c < 32 \/ 126 < c) -> escape_shape c (u_escape c)
| shape_pair :
    0x10000 <= c ->
    escape_shape c
      (u_escape (N.lor 0xd800 (N.land (N.shiftr (c - 0x10000) 10) 0x3ff))
       ++ u_escape (N.lor 0xdc00 (N.land (c - 0x10000) 0x3ff))).

(** The encoded sample without its two quotes. *)
Definition sample_body : str := flat_map escape_char default_sample.

(** The events of reading the input. *)
Definition input_event (ev : event) : Prop :=
  match ev with
  | EvIsFile _ | EvReadText _ | EvStdinRead => True
  | _ => False
  end.

(** ** A template, worlds and inputs to run the script on *)

Definition demo_prefix : str := lit "<script>const preload = ".
Definition demo_suffix : str := lit "; const sample = __SAMPLE__;</script>".
Definition demo_template : str := demo_prefix ++ PRELOAD ++ demo_suffix.

(** A world in which the files under [/srv/] exist; [launch] is what the
    browser launcher does. *)
Definition demo_world (launch : result bool) : World := {|
  w_is_file := fun p => startswith (lit "/srv/") (path_str p);
  w_read_text := fun _ => Ok demo_template;
  w_stdin := Ok (lit "x^2" ++ [newline]);
  w_template_path := mkPath (lit "/srv/index.html");
  w_tempfile := Ok (mkPath (lit "/tmp/tmpab12.html"));
  w_write_text := fun _ _ => Ok tt;
  w_as_uri := fun p => lit "file://" ++ path_str p;
  w_browser_open := fun _ => launch
|}.

Definition demo_args : Namespace :=
  {| file := None; text := Some (lit "x^2"); open := true |}.

Definition demo_html : str :=
  build_page_from (normalize_latex (lit "x^2")) demo_template.

(** A world given by what exists, what reading gives, and how writing
    and launching end. *)
Definition script_world
  (there : Path -> bool) (content : result str) (written : result unit)
  (launch : result bool) : World := {|
  w_is_file := there;
  w_read_text := fun _ => content;
  w_stdin := Ok (lit "  " ++ [newline]);
  w_template_path := mkPath (lit "/srv/index.html");
  w_tempfile := Ok (mkPath (lit "/tmp/tmpab12.html"));
  w_write_text := fun _ _ => written;
  w_as_uri := fun p => lit "file://" ++ path_str p;
  w_browser_open := fun _ => launch
|}.

Definition file_args : Namespace :=
  {| file := Some (mkPath (lit "notes.tex"));
     text := Some (lit "x^2"); open := true |}.

Definition stdin_args : Namespace :=
  {| file := None; text := None; open := false |}.

(** A markup with double quotes, already delimited. *)
Definition quoted_markup : str :=
  lit "$$say " ++ [quote] ++ lit "hi" ++ [quote] ++ lit "$$".

(** A markup that spells the sample placeholder. *)
Definition hostile_markup : str := lit "$$" ++ [quote] ++ SAMPLE.

(** * Prefixes and substrings *)

Lemma startswith_spec (p s : str) :
  startswith p s = true <-> exists r, s = p ++ r.
Proof.
  revert s; induction p as [|a p IH]; intros s; simpl.
  - split; [intros _; now exists s | trivial].
  - destruct s as [|b s].
    + split; [discriminate | intros [r Hr]; discriminate].
    + rewrite andb_true_iff, N.eqb_eq, IH. split.
      * intros [-> [r ->]]. now exists r.
      * intros [r Hr]. injection Hr as -> ->. split; [reflexivity | now exists r].
Qed.

Lemma startswith_app (p r : str) : startswith p (p ++ r) = true.
Proof. apply startswith_spec. now exists r. Qed.

Lemma contains_spec (n h : str) :
  contains n h = true <-> occurs n h.
Proof.
  unfold occurs. induction h as [|c h IH]; simpl.
  - rewrite orb_false_r, startswith_spec. split.
    + intros [r Hr]. exists [], r. exact Hr.
    + intros [a [b Hab]]. destruct a; [now exists b | discriminate].
  - rewrite orb_true_iff, startswith_spec, IH. split.
    + intros [[r Hr] | [a [b Hab]]].
      * exists [], r. exact Hr.
      * exists (c :: a), b. simpl. now rewrite Hab.
    + intros [[|x a] [b Hab]].
      * left. now exists b.
      * right. injection Hab as -> ->. now exists a, b.
Qed.

Lemma contains_false (n h : str) :
  contains n h = false <-> ~ occurs n h.
Proof.
  rewrite <- contains_spec. destruct (contains n h); split; intros H;
    try reflexivity; try discriminate; try (intros E; discriminate).
  now elim H.
Qed.

(** * Stripping *)

Lemma lstrip_decomp (s : str) :
  exists l, s = l ++ lstrip s /\ forallb is_space l = true.
Proof.
  induction s as [|c s [l [Hl Hs]]]; simpl.
  - now exists [].
  - destruct (is_space c) eqn:E.
    + exists (c :: l). simpl. rewrite E, Hs. split; [now rewrite <- Hl | reflexivity].
    + now exists [].
Qed.

Lemma lstrip_hd (s : str) : hd_space (lstrip s) = false.
Proof.
  induction s as [|c s IH]; simpl; [reflexivity|].
  destruct (is_space c) eqn:E; [exact IH | simpl; exact E].
Qed.

Lemma lstrip_fixed (s : str) : hd_space s = false -> lstrip s = s.
Proof. destruct s as [|c s]; simpl; [reflexivity | now intros ->]. Qed.

Lemma forallb_rev {A} (f : A -> bool) (l : list A) :
  forallb f (rev l) = forallb f l.
Proof.
  induction l as [|a l IH]; simpl; [reflexivity|].
  rewrite forallb_app, IH. simpl. rewrite andb_true_r. apply andb_comm.
Qed.

Lemma rstrip_decomp (s : str) :
  exists r, s = rstrip s ++ r /\ forallb is_space r = true.
Proof.
  unfold rstrip. destruct (lstrip_decomp (rev s)) as [l [Hl Hs]].
  exists (rev l). split.
  - rewrite <- rev_app_distr, <- Hl. symmetry. apply rev_involutive.
  - now rewrite forallb_rev.
Qed.

Lemma strip_decomp (s : str) :
  exists l r, s = l ++ strip s ++ r
              /\ forallb is_space l = true /\ forallb is_space r = true.
Proof.
  destruct (lstrip_decomp s) as [l [Hl Hsl]].
  destruct (rstrip_decomp (lstrip s)) as [r [Hr Hsr]].
  exists l, r. unfold strip. now rewrite <- Hr.
Qed.

Lemma strip_no_outer_space (s : str) : no_outer_space (strip s).
Proof.
  unfold no_outer_space, strip. split.
  - destruct (rstrip_decomp (lstrip s)) as [r [Hr _]].
    pose proof (lstrip_hd s) as Hh. rewrite Hr in Hh.
    destruct (rstrip (lstrip s)); [reflexivity | exact Hh].
  - unfold rstrip. rewrite rev_involutive. apply lstrip_hd.
Qed.

Lemma strip_fixed (t : str) : no_outer_space t -> strip t = t.
Proof.
  intros [H1 H2]. unfold strip, rstrip.
  rewrite (lstrip_fixed t H1), (lstrip_fixed (rev t) H2). apply rev_involutive.
Qed.

Lemma strip_idempotent (s : str) : strip (strip s) = strip s.
Proof. apply strip_fixed, strip_no_outer_space. Qed.

Lemma wrapped_no_outer_space (t : str) :
  no_outer_space (lit "$$" ++ [newline] ++ t ++ [newline] ++ lit "$$").
Proof.
  split; [reflexivity|].
  repeat rewrite rev_app_distr. reflexivity.
Qed.

(** * [normalize_latex] *)

Lemma normalize_latex_cases (s : str) :
  (strip s = [] /\ normalize_latex s = [])
  \/ (strip s <> []
      /\ existsb (fun m => contains m (strip s)) markers = true
      /\ normalize_latex s = strip s)
  \/ (strip s <> []
      /\ existsb (fun m => contains m (strip s)) markers = false
      /\ normalize_latex s
         = lit "$$" ++ [newline] ++ strip s ++ [newline] ++ lit "$$").
Proof.
  unfold normalize_latex. destruct (strip s) as [|c t] eqn:E.
  - now left.
  - right. destruct (existsb _ markers) eqn:M.
    + left. split; [discriminate | split; reflexivity].
    + right. split; [discriminate | split; reflexivity].
Qed.

(** C1.  The three steps of [normalize_latex].  The input is its trimmed
    text [strip s] between two runs of white space, and the trimmed text
    neither starts nor ends with white space.  If the trimmed text is
    empty the result is empty.  If one of the five tokens (backslash with
    an opening or closing parenthesis, backslash with an opening or closing
    square bracket, two dollar signs) occurs anywhere in it, be it a lone
    closing token, the result is the trimmed text.  Otherwise the result is
    the trimmed text between two dollar signs and a newline before it and a
    newline and two dollar signs after it. *)
Theorem normalize_latex_algorithm (s : str) :
  (exists l r, s = l ++ strip s ++ r
               /\ forallb is_space l = true /\ forallb is_space r = true)
  /\ no_outer_space (strip s)
  /\ (strip s = [] -> normalize_latex s = [])
  /\ (forall tok,
        In tok [lit "\("; lit "\)"; lit "\["; lit "\]"; lit "$$"] ->
        occurs tok (strip s) -> normalize_latex s = strip s)
  /\ (strip s <> [] ->
      (forall tok,
         In tok [lit "\("; lit "\)"; lit "\["; lit "\]"; lit "$$"] ->
         ~ occurs tok (strip s)) ->
      normalize_latex s
      = lit "$$" ++ [newline] ++ strip s ++ [newline] ++ lit "$$").
Proof.
  split; [apply strip_decomp|].
  split; [apply strip_no_outer_space|].
  destruct (normalize_latex_cases s) as [[E N] | [[E [M N]] | [E [M N]]]].
  - split; [trivial|]. split.
    + intros tok _ [a [b Hab]]. rewrite E in Hab.
      now rewrite N, E.
    + intros H. now elim H.
  - split; [intros H; now elim E|]. split; [trivial|].
    intros _ H. exfalso.
    apply existsb_exists in M. destruct M as [m [Hin Hm]].
    apply contains_spec in Hm. apply (H m); [|exact Hm].
    simpl in Hin. simpl. tauto.
  - split; [intros H; now elim E|]. split; [|trivial].
    intros tok Hin Hocc. exfalso.
    apply contains_spec in Hocc.
    assert (existsb (fun m => contains m (strip s)) markers = true) as C.
    { apply existsb_exists. exists tok. split; [|exact Hocc].
      simpl in Hin. simpl. tauto. }
    congruence.
Qed.

(** C9.  What [normalize_latex] returns has no white space at either end:
    neither its first nor its last character is a white-space character,
    and so stripping it changes nothing. *)
Theorem normalize_latex_stripped (s : str) :
  no_outer_space (normalize_latex s)
  /\ strip (normalize_latex s) = normalize_latex s.
Proof.
  assert (no_outer_space (normalize_latex s)) as H.
  { destruct (normalize_latex_cases s) as [[E N] | [[E [M N]] | [E [M N]]]];
      rewrite N.
    - split; reflexivity.
    - apply strip_no_outer_space.
    - apply wrapped_no_outer_space. }
  split; [exact H | now apply strip_fixed].
Qed.

Lemma normalize_latex_fixed (t : str) :
  t <> [] -> no_outer_space t ->
  existsb (fun m => contains m t) markers = true ->
  normalize_latex t = t.
Proof.
  intros Hne Hno Hm. unfold normalize_latex. rewrite (strip_fixed t Hno).
  destruct t; [now elim Hne|]. now rewrite Hm.
Qed.

Lemma wrapped_has_marker (t : str) :
  existsb (fun m => contains m
                      (lit "$$" ++ [newline] ++ t ++ [newline] ++ lit "$$"))
          markers = true.
Proof.
  apply existsb_exists. exists (lit "$$"). split; [|reflexivity].
  simpl. tauto.
Qed.

(** C2.  Normalising twice is normalising once. *)
Theorem normalize_latex_idempotent (s : str) :
  normalize_latex (normalize_latex s) = normalize_latex s.
Proof.
  destruct (normalize_latex_cases s) as [[E N] | [[E [M N]] | [E [M N]]]];
    rewrite N.
  - reflexivity.
  - apply normalize_latex_fixed; [exact E | apply strip_no_outer_space | exact M].
  - apply normalize_latex_fixed.
    + discriminate.
    + apply wrapped_no_outer_space.
    + apply wrapped_has_marker.
Qed.

(** * More on prefixes and substrings *)

Lemma startswith_short (p s : str) :
  (List.length s < List.length p)%nat -> startswith p s = false.
Proof.
  revert s; induction p as [|a p IH]; intros [|b s]; simpl; intros H;
    try lia; try reflexivity.
  rewrite IH by lia. apply andb_false_r.
Qed.

Lemma startswith_app_ge (p s t : str) :
  (List.length p <= List.length s)%nat ->
  startswith p (s ++ t) = startswith p s.
Proof.
  revert s; induction p as [|a p IH]; intros [|b s]; simpl; intros H;
    try lia; try reflexivity.
  now rewrite IH by lia.
Qed.

Lemma startswith_app_true (p s t : str) :
  startswith p s = true -> startswith p (s ++ t) = true.
Proof.
  rewrite !startswith_spec. intros [r ->]. exists (r ++ t).
  now rewrite app_assoc.
Qed.

Lemma occurs_mono (x s a b : str) : occurs x s -> occurs x (a ++ s ++ b).
Proof.
  intros [u [v ->]]. exists (a ++ u), (v ++ b).
  now rewrite <- !app_assoc.
Qed.

Lemma contains_mono (x s a b : str) :
  contains x (a ++ s ++ b) = false -> contains x s = false.
Proof.
  rewrite !contains_false. intros H O. apply H. now apply occurs_mono.
Qed.

Lemma contains_app_l (x a b : str) :
  contains x (a ++ b) = false -> contains x a = false.
Proof.
  intros H. apply (contains_mono x a [] b). exact H.
Qed.

Lemma contains_app_r (x a b : str) :
  contains x (a ++ b) = false -> contains x b = false.
Proof.
  intros H. apply (contains_mono x b a []). now rewrite app_nil_r.
Qed.

Lemma contains_skipn (x s : str) (k : nat) :
  contains x s = false -> contains x (skipn k s) = false.
Proof.
  intros H. apply (contains_app_r x (firstn k s)). now rewrite firstn_skipn.
Qed.

(** A character that is not in the token separates its occurrences. *)
Lemma occurs_sep (q : char) (x u v : str) :
  ~ In q x -> occurs x (u ++ q :: v) -> occurs x u \/ occurs x v.
Proof.
  intros Hq [a [b E]].
  apply app_eq_app in E. destruct E as [l [[Ea El] | [Eu El]]].
  - (* the occurrence starts inside [u] *)
    symmetry in El. apply app_eq_app in El.
    destruct El as [l2 [[Ex Eb] | [El Eqv]]].
    + left. subst u. destruct l2 as [|e l2].
      * rewrite app_nil_r in Ex. subst l. exists a, []. now rewrite app_nil_r.
      * exists a, (e :: l2). now rewrite Ex.
    + destruct l2 as [|e l2].
      * rewrite app_nil_r in El. subst l. left. exists a, [].
        now rewrite app_nil_r.
      * injection Eqv as -> Ev. elim Hq. rewrite El. apply in_or_app. right.
        now left.
  - destruct l as [|e l].
    + simpl in El. destruct x as [|e x].
      * left. exists u, []. now rewrite app_nil_r.
      * injection El as -> _. elim Hq. now left.
    + injection El as -> Ev. right. now exists l, b.
Qed.

Lemma contains_sep (q : char) (x u v : str) :
  ~ In q x -> contains x u = false -> contains x v = false ->
  contains x (u ++ q :: v) = false.
Proof.
  rewrite !contains_false. intros Hq Hu Hv O.
  destruct (occurs_sep q x u v Hq O); contradiction.
Qed.

(** The first occurrence of a character splits a string in one way *)
Lemma split_at_first (q : char) (u v x w : str) :
  ~ In q u -> u ++ q :: v = x ++ q :: w ->
  (x = u /\ v = w) \/ (exists z, x = u ++ q :: z /\ v = z ++ q :: w).
Proof.
  intros Hq E. apply app_eq_app in E. destruct E as [l [[Eu El] | [Ex El]]].
  - destruct l as [|e l].
    + rewrite app_nil_r in Eu. injection El as ->. now left.
    + injection El as -> _. elim Hq. rewrite Eu. apply in_or_app. right. now left.
  - destruct l as [|e l].
    + rewrite app_nil_r in Ex. injection El as ->. now left.
    + injection El as -> ->. right. now exists l.
Qed.

(** * [replace] *)

Section Replace.
Variables old new : str.

Lemma replace_from_skip (k : nat) (s : str) :
  replace_from old new k s = replace_from old new 0 (skipn k s).
Proof.
  revert k; induction s as [|c s IH]; intros [|k]; try reflexivity.
  simpl. apply IH.
Qed.

Lemma replace_from_match (s : str) :
  old <> [] -> startswith old s = true ->
  replace_from old new 0 s
  = new ++ replace_from old new 0 (skipn (List.length old) s).
Proof.
  intros Hne Hs. destruct s as [|c r].
  - destruct old; [now elim Hne | discriminate].
  - cbn [replace_from]. rewrite Hs, replace_from_skip.
    destruct old as [|o old']; [now elim Hne|].
    replace (List.length (o :: old') - 1)%nat with (List.length old')
      by (simpl; lia).
    reflexivity.
Qed.

Lemma replace_from_absent (s : str) :
  contains old s = false -> replace_from old new 0 s = s.
Proof.
  induction s as [|c s IH]; [reflexivity|].
  cbn [contains replace_from]. intros H. apply orb_false_iff in H.
  destruct H as [H1 H2]. now rewrite H1, IH.
Qed.

(** The leftmost occurrence is the first one replaced *)
Lemma replace_from_first (s : str) :
  old <> [] -> contains old s = true ->
  exists a b, s = a ++ old ++ b
              /\ contains old a = false
              /\ replace_from old new 0 s
                 = a ++ new ++ replace_from old new 0 b.
Proof.
  intros Hne. induction s as [|c s IH]; intros H.
  - simpl in H. rewrite orb_false_r in H.
    destruct old; [now elim Hne | discriminate].
  - destruct (startswith old (c :: s)) eqn:E.
    + pose proof E as E'. apply startswith_spec in E'. destruct E' as [b Hb].
      exists [], b. split; [exact Hb|]. split.
      * simpl. rewrite orb_false_r. destruct old; [now elim Hne | reflexivity].
      * rewrite (replace_from_match _ Hne E), Hb.
        now rewrite skipn_app, skipn_all, Nat.sub_diag.
    + cbn [contains] in H. rewrite E in H. simpl in H.
      destruct (IH H) as [a [b [Hs [Ha Hr]]]].
      exists (c :: a), b. split; [now rewrite Hs|]. split.
      * cbn [contains]. rewrite Ha, orb_false_r.
        destruct (startswith old (c :: a)) eqn:Ea; [|reflexivity].
        apply (startswith_app_true _ _ (old ++ b)) in Ea.
        rewrite Hs in E. simpl in Ea, E. congruence.
      * cbn [replace_from]. now rewrite E, Hr.
Qed.

Lemma replace_from_app (s2 s1 : str) (k : nat) :
  (k <= List.length s1)%nat -> straddles old s1 s2 = false ->
  replace_from old new k (s1 ++ s2)
  = replace_from old new k s1 ++ replace_from old new 0 s2.
Proof.
  revert k; induction s1 as [|c r IH]; intros k Hk Hs.
  - simpl in Hk. assert (k = 0%nat) as -> by lia. reflexivity.
  - cbn [straddles] in Hs. apply orb_false_iff in Hs. destruct Hs as [Hh Hs].
    destruct k as [|k].
    + change ((c :: r) ++ s2) with (c :: r ++ s2) in *.
      cbn [replace_from].
      destruct (Nat.ltb_spec (List.length (c :: r)) (List.length old)) as [L|L].
      * simpl in Hh. rewrite Hh. rewrite (startswith_short old (c :: r) L).
        simpl. now rewrite IH by (simpl; lia || assumption).
      * change (c :: r ++ s2) with ((c :: r) ++ s2).
        rewrite (startswith_app_ge old (c :: r) s2 L).
        destruct (startswith old (c :: r)).
        -- rewrite IH; [now rewrite app_assoc | simpl in L; lia | exact Hs].
        -- simpl. now rewrite IH by (simpl; lia || assumption).
    + simpl. apply IH; [simpl in Hk; lia | exact Hs].
Qed.
End Replace.

Lemma replace_nonempty (old new s : str) :
  old <> [] -> replace old new s = replace_from old new 0 s.
Proof. destruct old; [intros H; now elim H | reflexivity]. Qed.

Lemma replace_absent (old new s : str) :
  old <> [] -> contains old s = false -> replace old new s = s.
Proof.
  intros Hne H. rewrite replace_nonempty by exact Hne.
  now apply replace_from_absent.
Qed.

Lemma replace_app (old new s1 s2 : str) :
  old <> [] -> straddles old s1 s2 = false ->
  replace old new (s1 ++ s2) = replace old new s1 ++ replace old new s2.
Proof.
  intros Hne H. rewrite !replace_nonempty by exact Hne.
  apply replace_from_app; [lia | exact H].
Qed.

Lemma replace_unmatched (old new : str) (c : char) (s : str) :
  old <> [] -> startswith old (c :: s) = false ->
  replace old new (c :: s) = c :: replace old new s.
Proof.
  intros Hne H. rewrite !replace_nonempty by exact Hne.
  cbn [replace_from]. now rewrite H.
Qed.

Lemma replace_match (old new s : str) :
  old <> [] -> replace old new (old ++ s) = new ++ replace old new s.
Proof.
  intros Hne. rewrite !replace_nonempty by exact Hne.
  rewrite replace_from_match by (exact Hne || apply startswith_app).
  now rewrite skipn_app, skipn_all, Nat.sub_diag.
Qed.

(** A token cannot run across a character it does not contain *)
Lemma startswith_across (q : char) (x b s : str) :
  ~ In q x -> (List.length b < List.length x)%nat ->
  startswith x (b ++ q :: s) = false.
Proof.
  intros Hq L. destruct (startswith x (b ++ q :: s)) eqn:E; [|reflexivity].
  apply startswith_spec in E. destruct E as [r E].
  apply app_eq_app in E. destruct E as [l [[Eb _] | [Ex El]]].
  - rewrite Eb, length_app in L. lia.
  - destruct l as [|e l].
    + rewrite app_nil_r in Ex. subst x. lia.
    + injection El as -> _. elim Hq. rewrite Ex. apply in_or_app. right. now left.
Qed.

Lemma straddles_sep_r (q : char) (x s1 s2 : str) :
  ~ In q x -> straddles x s1 (q :: s2) = false.
Proof.
  intros Hq. induction s1 as [|c r IH]; [reflexivity|].
  cbn [straddles]. rewrite IH, orb_false_r.
  destruct (Nat.ltb_spec (List.length (c :: r)) (List.length x)) as [L|L];
    [|reflexivity].
  now rewrite (startswith_across q x (c :: r) s2 Hq L).
Qed.

Lemma straddles_sep_l (q : char) (x s1 s2 : str) :
  ~ In q x -> straddles x (s1 ++ [q]) s2 = false.
Proof.
  intros Hq. induction s1 as [|c r IH].
  - cbn [app straddles]. rewrite orb_false_r.
    destruct (Nat.ltb_spec (List.length [q]) (List.length x)) as [L|L];
      [|reflexivity].
    apply (startswith_across q x [] s2 Hq). simpl in *. lia.
  - change ((c :: r) ++ [q]) with (c :: r ++ [q]).
    cbn [straddles]. rewrite IH, orb_false_r.
    destruct (Nat.ltb_spec (List.length (c :: r ++ [q])) (List.length x))
      as [L|L]; [|reflexivity].
    change ((c :: r ++ [q]) ++ s2) with ((c :: r ++ [q]) ++ s2).
    replace ((c :: r ++ [q]) ++ s2) with ((c :: r) ++ q :: s2)
      by (simpl; now rewrite <- app_assoc).
    rewrite (startswith_across q x (c :: r) s2 Hq); [reflexivity|].
    simpl in *. rewrite length_app in L. simpl in L. lia.
Qed.

(** What a replacement by a delimited text can contain: a token without
    the delimiter occurs in the result only where it occurred before. *)
Lemma contains_replace_from (q : char) (x old nb : str) :
  ~ In q x -> contains x nb = false ->
  forall (r : str) (k : nat) (pre : str),
    contains x (pre ++ skipn k r) = false ->
    contains x (pre ++ replace_from old (q :: nb ++ [q]) k r) = false.
Proof.
  intros Hq Hnb. induction r as [|c r IH]; intros k pre H.
  - destruct k; exact H.
  - destruct k as [|k].
    + cbn [skipn] in H. cbn [replace_from].
      destruct (startswith old (c :: r)).
      * change ((q :: nb ++ [q]) ++ ?z) with (q :: (nb ++ [q]) ++ z).
        rewrite <- app_assoc.
        apply contains_sep; [exact Hq | now apply contains_app_l in H |].
        apply contains_sep; [exact Hq | exact Hnb |].
        apply (IH _ []). simpl.
        apply contains_skipn. apply contains_app_r in H.
        now apply (contains_app_r x [c]) in H.
      * replace (pre ++ c :: replace_from old (q :: nb ++ [q]) 0 r)
          with ((pre ++ [c]) ++ replace_from old (q :: nb ++ [q]) 0 r)
          by now rewrite <- app_assoc.
        apply IH. simpl. now rewrite <- app_assoc.
    + cbn [skipn] in H. cbn [replace_from]. now apply IH.
Qed.

Lemma contains_replace (q : char) (x old nb s : str) :
  old <> [] -> ~ In q x -> contains x nb = false -> contains x s = false ->
  contains x (replace old (q :: nb ++ [q]) s) = false.
Proof.
  intros Hne Hq Hnb Hs. rewrite replace_nonempty by exact Hne.
  apply (contains_replace_from q x old nb Hq Hnb s 0%nat []). exact Hs.
Qed.

(** Replacing by a delimited text leaves no occurrence of the token *)
Lemma replace_leaves_none (q : char) (old nb : str) :
  old <> [] -> ~ In q old -> contains old nb = false ->
  forall s, contains old (replace old (q :: nb ++ [q]) s) = false.
Proof.
  intros Hne Hq Hnb s. rewrite replace_nonempty by exact Hne.
  remember (List.length s) as n eqn:Hn.
  revert s Hn. induction n as [n IH] using lt_wf_ind. intros s Hn.
  destruct (contains old s) eqn:C.
  - destruct (replace_from_first old (q :: nb ++ [q]) s Hne C)
      as [a [b [Hs [Ha Hr]]]].
    rewrite Hr.
    change ((q :: nb ++ [q]) ++ ?z) with (q :: (nb ++ [q]) ++ z).
    rewrite <- app_assoc.
    apply contains_sep; [exact Hq | exact Ha |].
    apply contains_sep; [exact Hq | exact Hnb |].
    apply (IH (List.length b)); [|reflexivity].
    subst n s. rewrite !length_app.
    destruct old; [now elim Hne | simpl; lia].
  - now rewrite replace_from_absent.
Qed.

(** * Counting occurrences *)

Lemma occurrences_zero (x s : str) :
  occurrences x s = 0%nat <-> contains x s = false.
Proof.
  induction s as [|c s IH]; cbn [occurrences contains].
  - destruct (startswith x []); simpl; split; intros; (lia || congruence).
  - destruct (startswith x (c :: s)); simpl.
    + split; intros; (lia || congruence).
    + exact IH.
Qed.

Lemma occurrences_suffix (x a s : str) :
  (occurrences x s <= occurrences x (a ++ s))%nat.
Proof.
  induction a as [|c a IH]; [simpl; lia|].
  change ((c :: a) ++ s) with (c :: a ++ s). cbn [occurrences]. lia.
Qed.

Lemma occurrences_one (old new s : str) :
  old <> [] -> occurrences old s = 1%nat ->
  exists a b, s = a ++ old ++ b /\ replace old new s = a ++ new ++ b.
Proof.
  intros Hne H1.
  assert (contains old s = true) as C.
  { destruct (contains old s) eqn:C; [reflexivity|].
    apply occurrences_zero in C. lia. }
  destruct (replace_from_first old new s Hne C) as [a [b [Hs [Ha Hr]]]].
  exists a, b. split; [exact Hs|].
  rewrite replace_nonempty, Hr by exact Hne.
  rewrite replace_from_absent; [reflexivity|].
  apply occurrences_zero.
  pose proof (occurrences_suffix old a (old ++ b)) as L1. rewrite <- Hs in L1.
  destruct old as [|o old']; [now elim Hne|].
  assert (occurrences (o :: old') ((o :: old') ++ b)
          = S (occurrences (o :: old') (old' ++ b))) as E.
  { change ((o :: old') ++ b) with (o :: old' ++ b). cbn [occurrences].
    change (o :: old' ++ b) with ((o :: old') ++ b).
    now rewrite startswith_app. }
  pose proof (occurrences_suffix (o :: old') old' b) as L2. lia.
Qed.

(** A delimited text occurs once in its own surroundings when its inside
    does not occur in them *)
Lemma occurrences_delimited (q : char) (body a b : str) :
  ~ In q body -> contains body a = false -> contains body b = false ->
  occurrences (q :: body ++ [q]) (a ++ (q :: body ++ [q]) ++ b) = 1%nat.
Proof.
  intros Hq Ha Hb. apply contains_false in Hb.
  induction a as [|c a IH].
  - cbn [app occurrences].
    change (q :: (body ++ [q]) ++ b) with ((q :: body ++ [q]) ++ b).
    rewrite startswith_app.
    assert (occurrences (q :: body ++ [q]) ((body ++ [q]) ++ b) = 0%nat) as Z;
      [|now rewrite Z].
    apply occurrences_zero, contains_false. intros [x [y E]].
    simpl in E. rewrite <- !app_assoc in E. simpl in E.
    destruct (split_at_first q body b x (body ++ q :: y) Hq E)
      as [[_ E2] | [z [_ E2]]]; apply Hb.
    + exists [], (q :: y). exact E2.
    + exists (z ++ [q]), (q :: y). rewrite E2, <- !app_assoc. reflexivity.
  - change ((c :: a) ++ ?z) with (c :: a ++ z). cbn [occurrences].
    rewrite IH by (now apply (contains_app_r body [c]) in Ha).
    destruct (startswith (q :: body ++ [q])
                (c :: a ++ (q :: body ++ [q]) ++ b)) eqn:E; [|reflexivity].
    exfalso. apply startswith_spec in E. destruct E as [r E].
    injection E as -> E. simpl in E. rewrite <- !app_assoc in E. simpl in E.
    apply contains_false in Ha. apply Ha. symmetry in E.
    destruct (split_at_first q body r a (body ++ q :: b) Hq E)
      as [[E2 _] | [z [E2 _]]].
    + exists [q], []. rewrite E2, app_nil_r. reflexivity.
    + exists [q], (q :: z). rewrite E2. reflexivity.
Qed.

(** * Hexadecimal digits *)

Lemma below_16 (P : N -> Prop) :
  P 0 -> P 1 -> P 2 -> P 3 -> P 4 -> P 5 -> P 6 -> P 7 -> P 8 -> P 9 ->
  P 10 -> P 11 -> P 12 -> P 13 -> P 14 -> P 15 ->
  forall d, d < 16 -> P d.
Proof.
  intros. destruct d as [|p]; [assumption|].
  do 4 (try destruct p as [p|p|]); try assumption; lia.
Qed.

Lemma hexval_hexdigit (d : N) : d < 16 -> hexval (hexdigit d) = Some d.
Proof. revert d. apply below_16; reflexivity. Qed.

Lemma hexdigit_output (d : N) : d < 16 -> is_escape_output (hexdigit d) = true.
Proof. revert d. apply below_16; reflexivity. Qed.

Lemma hex4_value (n : N) :
  n < 65536 ->
  ((n / 4096 mod 16 * 16 + n / 256 mod 16) * 16 + n / 16 mod 16) * 16
  + n mod 16 = n.
Proof.
  intros H.
  pose proof (N.div_mod n 16 ltac:(lia)).
  pose proof (N.div_mod (n / 16) 16 ltac:(lia)).
  pose proof (N.div_mod (n / 256) 16 ltac:(lia)).
  pose proof (N.div_mod (n / 4096) 16 ltac:(lia)).
  assert (n / 16 / 16 = n / 256) by (now rewrite N.Div0.div_div).
  assert (n / 256 / 16 = n / 4096) by (now rewrite N.Div0.div_div).
  assert (n / 4096 / 16 = 0)
    by (rewrite N.Div0.div_div; apply N.div_small; lia).
  lia.
Qed.

Lemma decode_u_escape (n : N) :
  n < 65536 ->
  decode_uXXXX (hexdigit (n / 4096 mod 16)) (hexdigit (n / 256 mod 16))
               (hexdigit (n / 16 mod 16)) (hexdigit (n mod 16)) = Some n.
Proof.
  intros H. unfold decode_uXXXX.
  rewrite !hexval_hexdigit by (apply N.mod_lt; lia).
  now rewrite hex4_value.
Qed.

(** * Surrogates *)

Lemma land_shiftl_low (a k x : N) :
  x < 2 ^ k -> N.land (N.shiftl a k) x = 0.
Proof.
  intros H. apply N.bits_inj. intros i.
  rewrite N.land_spec, N.bits_0.
  destruct (N.lt_ge_cases i k) as [L|L].
  - now rewrite N.shiftl_spec_low.
  - rewrite <- (N.mod_small x (2 ^ k) H), N.mod_pow2_bits_high by exact L.
    apply andb_false_r.
Qed.

Lemma lor_shiftl_low (a k x : N) :
  x < 2 ^ k -> N.lor (N.shiftl a k) x = a * 2 ^ k + x.
Proof.
  intros H. pose proof (land_shiftl_low a k x H) as Z.
  rewrite <- (N.lxor_lor _ _ Z), <- (N.add_nocarry_lxor _ _ Z).
  now rewrite N.shiftl_mul_pow2.
Qed.

Lemma high_surrogate (c : N) :
  0x10000 <= c -> c < 0x110000 ->
  N.lor 0xd800 (N.land (N.shiftr (c - 0x10000) 10) 0x3ff)
  = 0xd800 + (c - 0x10000) / 1024
  /\ (c - 0x10000) / 1024 < 1024.
Proof.
  intros L U.
  assert ((c - 0x10000) / 1024 < 1024) as B
    by (apply N.Div0.div_lt_upper_bound; lia).
  split; [|exact B].
  change 0x3ff with (N.ones 10). rewrite N.land_ones, N.shiftr_div_pow2.
  change (2 ^ 10) with 1024. rewrite N.mod_small by exact B.
  change 0xd800 with (N.shiftl 54 10). rewrite lor_shiftl_low by exact B.
  reflexivity.
Qed.

Lemma low_surrogate (n : N) :
  N.lor 0xdc00 (N.land n 0x3ff) = 0xdc00 + n mod 1024.
Proof.
  change 0x3ff with (N.ones 10). rewrite N.land_ones.
  change (2 ^ 10) with 1024.
  change 0xdc00 with (N.shiftl 55 10).
  rewrite lor_shiftl_low by (apply N.mod_lt; discriminate).
  reflexivity.
Qed.

Lemma join_surrogates (c : N) :
  0x10000 <= c -> c < 0x110000 ->
  0x10000 + N.lor (N.shiftl (0xd800 + (c - 0x10000) / 1024 - 0xd800) 10)
                  (0xdc00 + (c - 0x10000) mod 1024 - 0xdc00) = c.
Proof.
  intros L U.
  assert (forall a t : N, a + t - a = t) as E by (intros; lia).
  rewrite !E.
  rewrite lor_shiftl_low by (apply N.mod_lt; discriminate).
  change (2 ^ 10) with 1024.
  pose proof (N.div_mod (c - 65536) 1024 ltac:(lia)). lia.
Qed.

(** * Scanning what [escape_char] wrote *)

Lemma scan_plain (c : char) (rest : str) :
  c <> 34 -> c <> 92 -> 32 <= c ->
  scanstring (c :: rest) = push c (scanstring rest).
Proof.
  intros H1 H2 H3. cbn [scanstring].
  rewrite (proj2 (N.eqb_neq c 34) H1), (proj2 (N.eqb_neq c 92) H2).
  now rewrite (proj2 (N.ltb_ge c 32) H3).
Qed.

Lemma scan_u (h1 h2 h3 h4 : char) (uni : N) (rest : str) :
  decode_uXXXX h1 h2 h3 h4 = Some uni ->
  (is_high uni = true -> starts_low_escape rest = false) ->
  scanstring (92 :: 117 :: h1 :: h2 :: h3 :: h4 :: rest)
  = push uni (scanstring rest).
Proof.
  intros D H.
  change (scanstring (92 :: 117 :: h1 :: h2 :: h3 :: h4 :: rest))
    with (match decode_uXXXX h1 h2 h3 h4 with
          | None => None
          | Some uni =>
              if is_high uni then
                match rest with
                | b :: u :: r3 =>
                    if (b =? 92) && (u =? 117) then
                      match r3 with
                      | k1 :: k2 :: k3 :: k4 :: r4 =>
                          match decode_uXXXX k1 k2 k3 k4 with
                          | None => None
                          | Some uni2 =>
                              if is_low uni2
                              then push (0x10000 +
                                         N.lor (N.shiftl (uni - 0xd800) 10)
                                               (uni2 - 0xdc00))
                                        (scanstring r4)
                              else push uni (scanstring rest)
                          end
                      | _ => None
                      end
                    else push uni (scanstring rest)
                | _ => push uni (scanstring rest)
                end
              else push uni (scanstring rest)
          end).
  rewrite D. destruct (is_high uni); [|reflexivity].
  specialize (H eq_refl). unfold starts_low_escape in H.
  destruct rest as [|b [|u r3]]; try reflexivity.
  destruct ((b =? 92) && (u =? 117)); [|reflexivity].
  destruct r3 as [|k1 [|k2 [|k3 [|k4 r4]]]]; try discriminate.
  destruct (decode_uXXXX k1 k2 k3 k4); [|discriminate].
  now rewrite H.
Qed.

Lemma scan_pair
  (h1 h2 h3 h4 k1 k2 k3 k4 : char) (uni uni2 : N) (rest : str) :
  decode_uXXXX h1 h2 h3 h4 = Some uni -> is_high uni = true ->
  decode_uXXXX k1 k2 k3 k4 = Some uni2 -> is_low uni2 = true ->
  scanstring (92 :: 117 :: h1 :: h2 :: h3 :: h4
              :: 92 :: 117 :: k1 :: k2 :: k3 :: k4 :: rest)
  = push (0x10000 + N.lor (N.shiftl (uni - 0xd800) 10) (uni2 - 0xdc00))
         (scanstring rest).
Proof.
  intros D1 H1 D2 H2.
  change (scanstring (92 :: 117 :: h1 :: h2 :: h3 :: h4
                      :: 92 :: 117 :: k1 :: k2 :: k3 :: k4 :: rest))
    with (match decode_uXXXX h1 h2 h3 h4 with
          | None => None
          | Some uni =>
              if is_high uni then
                match decode_uXXXX k1 k2 k3 k4 with
                | None => None
                | Some uni2 =>
                    if is_low uni2
                    then push (0x10000 +
                               N.lor (N.shiftl (uni - 0xd800) 10)
                                     (uni2 - 0xdc00))
                              (scanstring rest)
                    else push uni (scanstring
                                     (92 :: 117 :: k1 :: k2 :: k3 :: k4 :: rest))
                end
              else push uni (scanstring
                               (92 :: 117 :: k1 :: k2 :: k3 :: k4 :: rest))
          end).
  now rewrite D1, H1, D2, H2.
Qed.

Lemma escape_char_shape (c : char) : escape_shape c (escape_char c).
Proof.
  unfold escape_char.
  destruct (N.eqb_spec c 34) as [->|N1];
    [apply shape_short; simpl; tauto|].
  destruct (N.eqb_spec c 92) as [->|N2];
    [apply shape_short; simpl; tauto|].
  destruct (N.eqb_spec c 10) as [->|N3];
    [apply shape_short; simpl; tauto|].
  destruct (N.eqb_spec c 13) as [->|N4];
    [apply shape_short; simpl; tauto|].
  destruct (N.eqb_spec c 9) as [->|N5];
    [apply shape_short; simpl; tauto|].
  destruct (N.eqb_spec c 8) as [->|N6];
    [apply shape_short; simpl; tauto|].
  destruct (N.eqb_spec c 12) as [->|N7];
    [apply shape_short; simpl; tauto|].
  destruct (N.leb_spec 32 c) as [L1|L1]; cbn [andb].
  - destruct (N.leb_spec c 126) as [L2|L2].
    + now apply shape_plain.
    + destruct (N.ltb_spec c 0x10000) as [L3|L3].
      * apply shape_u; [exact L3 | now right].
      * cbv zeta. now apply shape_pair.
  - destruct (N.ltb_spec c 0x10000) as [L3|L3].
    + apply shape_u; [exact L3 | now left].
    + cbv zeta. now apply shape_pair.
Qed.

Ltac short_cases H :=
  simpl in H;
  repeat (destruct H as [H|H]; [injection H as <- <-|]); [..|contradiction].

Lemma is_high_pair (c : char) :
  0x10000 <= c -> c < 0x110000 ->
  is_high (0xd800 + (c - 0x10000) / 1024) = true.
Proof.
  intros L U. destruct (high_surrogate c L U) as [_ B].
  remember ((c - 0x10000) / 1024) as t.
  unfold is_high. apply andb_true_iff. split; apply N.leb_le; lia.
Qed.

Lemma is_low_pair (c : char) :
  is_low (0xdc00 + (c - 0x10000) mod 1024) = true.
Proof.
  pose proof (N.mod_lt (c - 0x10000) 1024 ltac:(discriminate)).
  remember ((c - 0x10000) mod 1024) as t.
  unfold is_low. apply andb_true_iff. split; apply N.leb_le; lia.
Qed.

Lemma scan_escape (c : char) (e rest : str) :
  c < 0x110000 -> escape_shape c e ->
  (is_high c = true -> starts_low_escape rest = false) ->
  scanstring (e ++ rest) = push c (scanstring rest).
Proof.
  intros V S H. destruct S as [k Hk| | |L].
  - short_cases Hk; reflexivity.
  - now apply scan_plain.
  - apply scan_u; [now apply decode_u_escape | exact H].
  - destruct (high_surrogate c L V) as [-> B]. rewrite low_surrogate.
    unfold u_escape. cbn [app].
    pose proof (N.mod_lt (c - 0x10000) 1024 ltac:(discriminate)) as B2.
    erewrite scan_pair.
    + now rewrite join_surrogates.
    + apply decode_u_escape. lia.
    + now apply is_high_pair.
    + apply decode_u_escape. lia.
    + apply is_low_pair.
Qed.

Lemma escape_not_low (c : char) (e rest : str) :
  c < 0x110000 -> escape_shape c e -> is_low c = false ->
  starts_low_escape (e ++ rest) = false.
Proof.
  intros V S H. destruct S as [k Hk| | |L].
  - short_cases Hk; reflexivity.
  - cbn [app]. unfold starts_low_escape. destruct rest; [reflexivity|].
    now rewrite (proj2 (N.eqb_neq c 92)).
  - unfold u_escape. cbn [app]. unfold starts_low_escape.
    change ((92 =? 92) && (117 =? 117)) with true. cbv iota.
    now rewrite decode_u_escape.
  - destruct (high_surrogate c L V) as [-> B]. rewrite low_surrogate.
    unfold u_escape. cbn [app]. unfold starts_low_escape.
    change ((92 =? 92) && (117 =? 117)) with true. cbv iota.
    rewrite decode_u_escape by lia.
    unfold is_low. apply andb_false_iff. left. apply N.leb_gt. lia.
Qed.

Lemma escape_plain_char (c x : char) (e : str) :
  escape_shape c e -> In x e -> is_escape_output x = false ->
  e = [x] /\ c = x.
Proof.
  intros S Hin Hx.
  assert (forall n, In x (u_escape n) -> False) as U.
  { intros n Hn. unfold u_escape in Hn. simpl in Hn.
    destruct Hn as [<-|[<-|[<-|[<-|[<-|[<-|[]]]]]]]; try discriminate;
      rewrite hexdigit_output in Hx by (apply N.mod_lt; discriminate);
      discriminate. }
  destruct S as [k Hk| | |L].
  - exfalso. short_cases Hk; simpl in Hin;
      destruct Hin as [<-|[<-|[]]]; discriminate.
  - simpl in Hin. destruct Hin as [<-|[]]. now split.
  - exfalso. eapply U, Hin.
  - exfalso. apply in_app_or in Hin. destruct Hin as [Hin|Hin]; eapply U, Hin.
Qed.

Lemma escape_nonempty (c : char) (e : str) : escape_shape c e -> e <> [].
Proof.
  intros S. destruct S; try discriminate.
Qed.

(** * Decoding what [json_dumps] wrote *)

Lemma scanstring_escaped (m tail : str) :
  valid_str m -> no_surrogate_pair m = true ->
  scanstring (flat_map escape_char m ++ quote :: tail) = Some (m, tail).
Proof.
  induction m as [|c m IH]; intros V P; [reflexivity|].
  inversion V as [|? ? Vc Vm]; subst.
  cbn [flat_map]. rewrite <- app_assoc.
  rewrite (scan_escape c (escape_char c)); [| exact Vc
                                            | apply escape_char_shape |].
  - rewrite IH; [reflexivity | exact Vm |].
    cbn [no_surrogate_pair] in P. destruct m; [reflexivity|].
    now apply andb_true_iff in P.
  - intros Hh. destruct m as [|c2 m]; [destruct tail; reflexivity|].
    inversion Vm as [|? ? Vc2 _]; subst.
    cbn [flat_map]. rewrite <- app_assoc.
    apply (escape_not_low c2); [exact Vc2 | apply escape_char_shape |].
    cbn [no_surrogate_pair] in P. apply andb_true_iff in P.
    destruct P as [P _]. rewrite Hh in P. simpl in P.
    now destruct (is_low c2).
Qed.

Lemma json_string_at_dumps (before m after : str) :
  valid_str m -> no_surrogate_pair m = true ->
  json_string_at (List.length before) (before ++ json_dumps m ++ after)
  = Some (m, after).
Proof.
  intros V P. unfold json_string_at, json_dumps.
  rewrite skipn_app, skipn_all, Nat.sub_diag. cbn [app skipn].
  change (quote =? 34) with true. cbv iota.
  rewrite <- app_assoc. now apply scanstring_escaped.
Qed.

(** * Tokens inside encoded text *)

Lemma escaped_prefix (x m b : str) :
  forallb (fun c => negb (is_escape_output c)) x = true ->
  x ++ b = flat_map escape_char m ->
  exists m', m = x ++ m' /\ b = flat_map escape_char m'.
Proof.
  revert m. induction x as [|c x IH]; intros m Hx E.
  - now exists m.
  - cbn [forallb] in Hx. apply andb_true_iff in Hx. destruct Hx as [Hc Hx].
    apply negb_true_iff in Hc.
    destruct m as [|c2 m]; [discriminate|].
    cbn [flat_map] in E.
    pose proof (escape_char_shape c2) as S.
    destruct (escape_char c2) as [|h e] eqn:Ee;
      [now elim (escape_nonempty c2 [] S)|].
    injection E as <- E.
    destruct (escape_plain_char c2 c (c :: e) S (or_introl eq_refl) Hc)
      as [Ee' ->].
    injection Ee' as ->. simpl in E.
    destruct (IH m Hx E) as [m' [-> Hb]].
    now exists m'.
Qed.

Lemma occurs_escaped (x m : str) :
  forallb (fun c => negb (is_escape_output c)) x = true ->
  occurs x (flat_map escape_char m) -> occurs x m.
Proof.
  intros Hx [a [b E]]. revert a E.
  induction m as [|c m IH]; intros a E.
  - destruct a; [|discriminate]. destruct x; [|discriminate].
    now exists [], [].
  - cbn [flat_map] in E. symmetry in E. apply app_eq_app in E.
    destruct E as [l [[Ea El] | [Ee El]]].
    + (* the escape of [c] lies before the occurrence *)
      destruct (IH l El) as [u [v ->]]. exists (c :: u), v. reflexivity.
    + destruct l as [|h l].
      * simpl in El. destruct (IH [] (eq_sym El)) as [u [v ->]].
        exists (c :: u), v. reflexivity.
      * destruct x as [|x0 x]; [now exists [], (c :: m)|].
        injection El as <- El.
        cbn [forallb] in Hx. apply andb_true_iff in Hx. destruct Hx as [Hc Hx].
        apply negb_true_iff in Hc.
        pose proof (escape_char_shape c) as S.
        assert (In x0 (escape_char c)) as Hin
          by (rewrite Ee; apply in_or_app; right; now left).
        destruct (escape_plain_char c x0 _ S Hin Hc) as [E1 ->].
        rewrite E1 in Ee. destruct a as [|? [|? ?]]; try discriminate.
        injection Ee as <-.
        destruct (escaped_prefix x m b Hx El) as [m' [-> _]].
        exists [], m'. reflexivity.
Qed.

Lemma contains_dumps (x m : str) :
  forallb (fun c => negb (is_escape_output c)) x = true ->
  x <> [] ->
  contains x m = false -> contains x (json_dumps m) = false.
Proof.
  intros Hx Hne H. unfold json_dumps.
  assert (~ In quote x) as Hq.
  { intros Hin. rewrite forallb_forall in Hx. specialize (Hx _ Hin).
    discriminate. }
  cbn [app].
  apply (contains_sep quote x []); [exact Hq | |].
  - simpl. rewrite orb_false_r. destruct x; [now elim Hne | reflexivity].
  - apply contains_sep; [exact Hq | |].
    + apply contains_false. intros O. apply contains_false in H. apply H.
      now apply occurs_escaped.
    + simpl. rewrite orb_false_r. destruct x; [now elim Hne | reflexivity].
Qed.

(** * The two placeholders and the encoded sample *)

Lemma not_in_forallb (q : char) (x : str) :
  forallb (fun c => negb (c =? q)) x = true -> ~ In q x.
Proof.
  intros H Hin. rewrite forallb_forall in H. specialize (H q Hin).
  now rewrite N.eqb_refl in H.
Qed.

Lemma PRELOAD_nonempty : PRELOAD <> [].
Proof. discriminate. Qed.

Lemma SAMPLE_nonempty : SAMPLE <> [].
Proof. discriminate. Qed.

Lemma SAMPLE_no_quote : ~ In quote SAMPLE.
Proof. apply not_in_forallb. reflexivity. Qed.

Lemma SAMPLE_plain :
  forallb (fun c => negb (is_escape_output c)) SAMPLE = true.
Proof. reflexivity. Qed.

Lemma sample_body_no_quote : ~ In quote sample_body.
Proof. apply not_in_forallb. vm_compute. reflexivity. Qed.

Lemma sample_body_no_SAMPLE : contains SAMPLE sample_body = false.
Proof. vm_compute. reflexivity. Qed.

Lemma json_dumps_delimited (s : str) :
  json_dumps s = quote :: flat_map escape_char s ++ [quote].
Proof. reflexivity. Qed.

Lemma contains_SAMPLE_dumps (m : str) :
  contains SAMPLE m = false -> contains SAMPLE (json_dumps m) = false.
Proof.
  intros H.
  apply contains_dumps; [exact SAMPLE_plain | exact SAMPLE_nonempty | exact H].
Qed.

(** * [build_page] *)

(** A content placeholder that no earlier occurrence of the token overlaps
    is replaced by the encoded markup, over which the sample substitution
    then runs. *)
Lemma build_page_around_preload (m pre post : str) :
  straddles PRELOAD pre (PRELOAD ++ post) = false ->
  build_page_from m (pre ++ PRELOAD ++ post)
  = build_page_from m pre
    ++ replace SAMPLE (json_dumps default_sample) (json_dumps m)
    ++ build_page_from m post.
Proof.
  intros H. unfold build_page_from.
  rewrite (replace_app PRELOAD _ pre _ PRELOAD_nonempty H).
  rewrite (replace_match PRELOAD _ post PRELOAD_nonempty).
  rewrite (json_dumps_delimited m).
  set (X := replace PRELOAD _ pre). set (Y := replace PRELOAD _ post).
  set (J := json_dumps default_sample).
  rewrite (replace_app SAMPLE J X _ SAMPLE_nonempty)
    by (apply straddles_sep_r, SAMPLE_no_quote).
  f_equal.
  change (quote :: flat_map escape_char m ++ [quote])
    with ((quote :: flat_map escape_char m) ++ [quote]).
  apply (replace_app SAMPLE J _ Y SAMPLE_nonempty).
  apply straddles_sep_l, SAMPLE_no_quote.
Qed.

(** C3, amended.  When the template, after the markup has been put in,
    holds the sample placeholder exactly once and nowhere the text of the
    encoded sample, the page holds the JSON-encoded sample exactly once. *)
Theorem build_page_sample_once (m t : str) :
  occurrences SAMPLE (replace PRELOAD (json_dumps m) t) = 1%nat ->
  occurrences sample_body (replace PRELOAD (json_dumps m) t) = 0%nat ->
  occurrences (json_dumps default_sample) (build_page_from m t) = 1%nat.
Proof.
  intros H1 H0. unfold build_page_from.
  destruct (occurrences_one SAMPLE (json_dumps default_sample) _
              SAMPLE_nonempty H1) as [a [b [Hd ->]]].
  apply occurrences_zero in H0. rewrite Hd in H0.
  change (json_dumps default_sample) with (quote :: sample_body ++ [quote]).
  apply occurrences_delimited.
  - exact sample_body_no_quote.
  - now apply contains_app_l in H0.
  - apply contains_app_r in H0. now apply contains_app_r in H0.
Qed.

(** C5, amended.  A template without the content placeholder gets the
    sample substitution alone.  A template without the sample placeholder
    gets the content substitution alone, provided the markup does not spell
    the sample placeholder itself.  Whatever the template read holds,
    [build_page] returns a page and raises nothing. *)
Theorem build_page_missing_placeholder (m t : str) :
  (contains PRELOAD t = false ->
   build_page_from m t = replace SAMPLE (json_dumps default_sample) t)
  /\ (contains SAMPLE t = false -> contains SAMPLE m = false ->
      build_page_from m t = replace PRELOAD (json_dumps m) t)
  /\ (forall (w : World) (tr : list event) (p : Path),
        w_read_text w p = Ok t ->
        build_page m p w tr = (Ok (build_page_from m t), tr ++ [EvReadText p])).
Proof.
  split; [|split].
  - intros H. unfold build_page_from.
    now rewrite (replace_absent PRELOAD _ t PRELOAD_nonempty H).
  - intros Ht Hm. unfold build_page_from.
    apply (replace_absent SAMPLE _ _ SAMPLE_nonempty).
    rewrite (json_dumps_delimited m).
    apply contains_replace.
    + exact PRELOAD_nonempty.
    + exact SAMPLE_no_quote.
    + pose proof (contains_SAMPLE_dumps m Hm) as C.
      rewrite json_dumps_delimited in C.
      apply (contains_mono SAMPLE _ [quote] [quote]). exact C.
    + exact Ht.
  - intros w tr p H. unfold build_page, bind, read_text, call, ret.
    now rewrite H.
Qed.

(** C10.  The content substitution comes first and the sample substitution
    then runs over the whole text.  So when the encoded markup spells the
    sample placeholder, the text that ends up at the place of a content
    placeholder is the sample substitution of the encoded markup: the
    encoded sample stands at the first such place, the substitution goes on
    after it, and no sample placeholder is left. *)
Theorem build_page_sample_inside_content (m pre post : str) :
  straddles PRELOAD pre (PRELOAD ++ post) = false ->
  contains SAMPLE (json_dumps m) = true ->
  exists a b,
    json_dumps m = a ++ SAMPLE ++ b
    /\ contains SAMPLE a = false
    /\ replace SAMPLE (json_dumps default_sample) (json_dumps m)
       = a ++ json_dumps default_sample
           ++ replace SAMPLE (json_dumps default_sample) b
    /\ build_page_from m (pre ++ PRELOAD ++ post)
       = build_page_from m pre
         ++ (a ++ json_dumps default_sample
               ++ replace SAMPLE (json_dumps default_sample) b)
         ++ build_page_from m post
    /\ contains SAMPLE
         (a ++ json_dumps default_sample
            ++ replace SAMPLE (json_dumps default_sample) b) = false.
Proof.
  intros H C.
  destruct (replace_from_first SAMPLE (json_dumps default_sample) _
              SAMPLE_nonempty C) as [a [b [Hd [Ha Hr]]]].
  exists a, b. split; [exact Hd|]. split; [exact Ha|].
  rewrite <- !(replace_nonempty SAMPLE) in Hr by exact SAMPLE_nonempty.
  split; [exact Hr|].
  rewrite <- Hr. split.
  - now apply build_page_around_preload.
  - change (json_dumps default_sample) with (quote :: sample_body ++ [quote]).
    apply replace_leaves_none.
    + exact SAMPLE_nonempty.
    + exact SAMPLE_no_quote.
    + exact sample_body_no_SAMPLE.
Qed.

(** C4, amended.  For a markup that does not spell the sample placeholder
    (and has no high surrogate directly before a low one), the JSON string
    found in the page at the place of a content placeholder decodes to the
    markup, double quotes and all; what follows it is the rest of the
    page. *)
Theorem build_page_round_trip (m pre post : str) :
  valid_str m -> no_surrogate_pair m = true ->
  contains SAMPLE m = false ->
  straddles PRELOAD pre (PRELOAD ++ post) = false ->
  json_string_at (List.length (build_page_from m pre))
                 (build_page_from m (pre ++ PRELOAD ++ post))
  = Some (m, build_page_from m post).
Proof.
  intros V P C H.
  rewrite (build_page_around_preload m pre post H).
  rewrite (replace_absent SAMPLE _ _ SAMPLE_nonempty
             (contains_SAMPLE_dumps m C)).
  now apply json_string_at_dumps.
Qed.

(** * The script and its environment *)

(** C6.  With a file argument that is not an existing regular file,
    [load_latex] raises the not-found error after that one test, whatever
    the text argument and standard input are; the run prints the error line
    and nothing else, and exits with status 1. *)
Theorem main_missing_file (w : World) (args : Namespace) (p : Path) :
  file args = Some p -> w_is_file w p = false ->
  load_latex args w []
  = (Raise (FileNotFoundError (lit "No such file: " ++ path_str p)),
     [EvIsFile p])
  /\ main args w
     = {| trace := [EvIsFile p;
                    EvPrintErr (lit "Error: No such file: " ++ path_str p)];
          status := 1 |}.
Proof.
  intros Hf Hp.
  assert (load_latex args w []
          = (Raise (FileNotFoundError (lit "No such file: " ++ path_str p)),
             [EvIsFile p])) as L.
  { unfold load_latex. rewrite Hf. unfold bind, is_file, call. rewrite Hp.
    reflexivity. }
  split; [exact L|].
  unfold main, main_io, try_except, main_try, bind. rewrite L. reflexivity.
Qed.

(** C8.  Without a file argument, an empty text argument is not used:
    [load_latex] reads standard input, as it does without a text
    argument. *)
Theorem load_latex_empty_text
  (w : World) (args : Namespace) (tr : list event) :
  file args = None -> text args = Some [] ->
  load_latex args w tr
  = (match w_stdin w with
     | Ok data => Ok (match strip data with [] => [] | _ :: _ => data end)
     | Raise e => Raise e
     end, tr ++ [EvStdinRead]).
Proof.
  intros Hf Ht. unfold load_latex. rewrite Hf, Ht.
  unfold bind, stdin_read, call, ret.
  destruct (w_stdin w) as [data|e]; [|reflexivity].
  now destruct (strip data).
Qed.

(** C7, amended.  Once the page is written and the viewer is asked for:
    whatever the launcher returns, [False] for a failed launch included,
    the run reports the location and exits with status 0; whatever
    exception the launcher raises, the run prints it as an error after the
    write, reports no location and exits with status 1. *)
Theorem main_launch_outcome
  (w : World) (args : Namespace) (raw template : str) (tr : list event)
  (path : Path) :
  load_latex args w [] = (Ok raw, tr) ->
  w_is_file w (w_template_path w) = true ->
  w_read_text w (w_template_path w) = Ok template ->
  w_tempfile w = Ok path ->
  w_write_text w path (build_page_from (normalize_latex raw) template)
  = Ok tt ->
  open args = true ->
  (forall launched : bool,
      w_browser_open w (w_as_uri w path) = Ok launched ->
      main args w
      = {| trace :=
             tr ++ [EvIsFile (w_template_path w);
                    EvReadText (w_template_path w);
                    EvTempFile;
                    EvWriteText path
                      (build_page_from (normalize_latex raw) template);
                    EvBrowserOpen (w_as_uri w path);
                    EvPrintOut (lit "Preview written to " ++ path_str path)];
           status := 0 |})
  /\ (forall e : exn,
         w_browser_open w (w_as_uri w path) = Raise e ->
         main args w
         = {| trace :=
                tr ++ [EvIsFile (w_template_path w);
                       EvReadText (w_template_path w);
                       EvTempFile;
                       EvWriteText path
                         (build_page_from (normalize_latex raw) template);
                       EvBrowserOpen (w_as_uri w path);
                       EvPrintErr (lit "Error: " ++ exn_str e)];
              status := 1 |}).
Proof.
  intros Hl Hi Hr Ht Hw Ho.
  assert (forall answer : result bool,
             w_browser_open w (w_as_uri w path) = answer ->
             main args w
             = match answer with
               | Ok _ =>
                   {| trace :=
                        ((((((tr ++ [EvIsFile (w_template_path w)])
                             ++ [EvReadText (w_template_path w)])
                            ++ [EvTempFile])
                           ++ [EvWriteText path
                                 (build_page_from (normalize_latex raw)
                                    template)])
                          ++ [EvBrowserOpen (w_as_uri w path)])
                         ++ [EvPrintOut
                               (lit "Preview written to " ++ path_str path)]);
                      status := 0 |}
               | Raise e =>
                   {| trace :=
                        ((((((tr ++ [EvIsFile (w_template_path w)])
                             ++ [EvReadText (w_template_path w)])
                            ++ [EvTempFile])
                           ++ [EvWriteText path
                                 (build_page_from (normalize_latex raw)
                                    template)])
                          ++ [EvBrowserOpen (w_as_uri w path)])
                         ++ [EvPrintErr (lit "Error: " ++ exn_str e)]);
                      status := 1 |}
               end) as Run.
  { intros answer Hb.
    unfold main, main_io, try_except, main_try, bind. rewrite Hl.
    unfold is_file, call. rewrite Hi. cbn [negb ret].
    unfold build_page, bind, read_text, call, ret. rewrite Hr.
    unfold write_and_open, bind, named_temporary_file, write_text, call.
    rewrite Ht, Hw, Ho.
    unfold as_uri, webbrowser_open, call, ret. rewrite Hb.
    destruct answer; reflexivity. }
  split.
  - intros launched Hb. rewrite (Run _ Hb), <- !app_assoc. reflexivity.
  - intros e Hb. rewrite (Run _ Hb), <- !app_assoc. reflexivity.
Qed.

(** * The statements on concrete inputs *)

Example normalize_latex_plain :
  normalize_latex (lit "x^2")
  = lit "$$" ++ [newline] ++ lit "x^2" ++ [newline] ++ lit "$$".
Proof. reflexivity. Qed.

Example normalize_latex_delimited :
  normalize_latex (lit "\(x^2\)") = lit "\(x^2\)".
Proof. reflexivity. Qed.

Example normalize_latex_blank :
  normalize_latex [] = [] /\ normalize_latex (lit "   ") = [].
Proof. split; reflexivity. Qed.

(** Two surrogates in a row are written as two escapes and read back as
    one character: the reason for [no_surrogate_pair]. *)
Example surrogate_pair_is_joined :
  json_string_at 0 (json_dumps [0xd83d; 0xde00]) = Some ([0x1f600], []).
Proof. reflexivity. Qed.

Lemma normalize_latex_algorithm_witness :
  normalize_latex (lit "  x^2 " ++ [newline])
  = lit "$$" ++ [newline] ++ lit "x^2" ++ [newline] ++ lit "$$"
  /\ normalize_latex (lit " x^2\) ") = lit "x^2\)".
Proof.
  split.
  - destruct (normalize_latex_algorithm (lit "  x^2 " ++ [newline]))
      as [_ [_ [_ [_ H]]]].
    apply H; [discriminate|].
    intros tok Hin. apply contains_false.
    simpl in Hin.
    destruct Hin as [<-|[<-|[<-|[<-|[<-|[]]]]]]; reflexivity.
  - destruct (normalize_latex_algorithm (lit " x^2\) "))
      as [_ [_ [_ [H _]]]].
    apply (H (lit "\)")); [simpl; tauto|].
    exists (lit "x^2"), []. reflexivity.
Defined.

Lemma build_page_sample_once_witness :
  occurrences SAMPLE
    (replace PRELOAD (json_dumps (normalize_latex (lit "x^2"))) demo_template)
  = 1%nat
  /\ occurrences sample_body
       (replace PRELOAD (json_dumps (normalize_latex (lit "x^2")))
          demo_template) = 0%nat
  /\ occurrences (json_dumps default_sample) demo_html = 1%nat.
Proof.
  split; [vm_compute; reflexivity|].
  split; [vm_compute; reflexivity|].
  apply build_page_sample_once; vm_compute; reflexivity.
Defined.

(** A template with each placeholder once, and the markup [normalize_latex]
    makes of the input [__SAMPLE__]: the page holds the encoded sample
    twice. *)
Lemma build_page_sample_twice :
  occurrences PRELOAD demo_template = 1%nat
  /\ occurrences SAMPLE demo_template = 1%nat
  /\ occurrences (json_dumps default_sample)
       (build_page_from (normalize_latex SAMPLE) demo_template) = 2%nat
  /\ occurrences (json_dumps default_sample)
       (build_page_from (normalize_latex SAMPLE) demo_template) <> 1%nat.
Proof.
  split; [vm_compute; reflexivity|].
  split; [vm_compute; reflexivity|].
  split; [vm_compute; reflexivity|].
  vm_compute. discriminate.
Qed.

Lemma build_page_round_trip_witness :
  normalize_latex quoted_markup = quoted_markup
  /\ In quote quoted_markup
  /\ valid_str quoted_markup
  /\ no_surrogate_pair quoted_markup = true
  /\ contains SAMPLE quoted_markup = false
  /\ straddles PRELOAD demo_prefix (PRELOAD ++ demo_suffix) = false
  /\ json_string_at
       (List.length (build_page_from quoted_markup demo_prefix))
       (build_page_from quoted_markup (demo_prefix ++ PRELOAD ++ demo_suffix))
     = Some (quoted_markup, build_page_from quoted_markup demo_suffix).
Proof.
  assert (valid_str quoted_markup) as V
    by (unfold valid_str; repeat constructor).
  split; [reflexivity|].
  split; [simpl; tauto|].
  split; [exact V|].
  split; [reflexivity|].
  split; [reflexivity|].
  split; [reflexivity|].
  apply build_page_round_trip; [exact V | reflexivity..].
Defined.

(** A delimited markup with a double quote that spells the sample
    placeholder: the string found in the page at the place of the content
    placeholder ends at the quote of the encoded sample. *)
Lemma build_page_round_trip_broken :
  normalize_latex hostile_markup = hostile_markup
  /\ In quote hostile_markup
  /\ valid_str hostile_markup
  /\ no_surrogate_pair hostile_markup = true
  /\ straddles PRELOAD demo_prefix (PRELOAD ++ demo_suffix) = false
  /\ option_map fst
       (json_string_at
          (List.length (build_page_from hostile_markup demo_prefix))
          (build_page_from hostile_markup
             (demo_prefix ++ PRELOAD ++ demo_suffix)))
     = Some (lit "$$" ++ [quote])
  /\ json_string_at
       (List.length (build_page_from hostile_markup demo_prefix))
       (build_page_from hostile_markup (demo_prefix ++ PRELOAD ++ demo_suffix))
     <> Some (hostile_markup, build_page_from hostile_markup demo_suffix).
Proof.
  split; [reflexivity|].
  split; [simpl; tauto|].
  split; [unfold valid_str; repeat constructor|].
  split; [reflexivity|].
  split; [reflexivity|].
  split; [vm_compute; reflexivity|].
  vm_compute. discriminate.
Qed.

Lemma build_page_missing_placeholder_witness :
  (contains PRELOAD demo_suffix = false
   /\ build_page_from quoted_markup demo_suffix
      = replace SAMPLE (json_dumps default_sample) demo_suffix)
  /\ (contains SAMPLE (demo_prefix ++ PRELOAD) = false
      /\ contains SAMPLE quoted_markup = false
      /\ build_page_from quoted_markup (demo_prefix ++ PRELOAD)
         = replace PRELOAD (json_dumps quoted_markup) (demo_prefix ++ PRELOAD)).
Proof.
  split.
  - split; [reflexivity|].
    destruct (build_page_missing_placeholder quoted_markup demo_suffix)
      as [H _].
    apply H. reflexivity.
  - split; [reflexivity|]. split; [reflexivity|].
    destruct (build_page_missing_placeholder quoted_markup
                (demo_prefix ++ PRELOAD)) as [_ [H _]].
    apply H; reflexivity.
Defined.

(** A template that is the content placeholder alone, without the sample
    placeholder: the sample substitution still changes the page when the
    markup spells the placeholder. *)
Lemma build_page_sample_not_noop :
  contains SAMPLE PRELOAD = false
  /\ build_page_from hostile_markup PRELOAD
     <> replace PRELOAD (json_dumps hostile_markup) PRELOAD.
Proof.
  split; [reflexivity|]. vm_compute. discriminate.
Qed.

Lemma build_page_sample_inside_content_witness :
  straddles PRELOAD demo_prefix (PRELOAD ++ demo_suffix) = false
  /\ contains SAMPLE (json_dumps hostile_markup) = true
  /\ exists a b,
       json_dumps hostile_markup = a ++ SAMPLE ++ b
       /\ contains SAMPLE a = false
       /\ replace SAMPLE (json_dumps default_sample)
            (json_dumps hostile_markup)
          = a ++ json_dumps default_sample
              ++ replace SAMPLE (json_dumps default_sample) b
       /\ build_page_from hostile_markup (demo_prefix ++ PRELOAD ++ demo_suffix)
          = build_page_from hostile_markup demo_prefix
            ++ (a ++ json_dumps default_sample
                  ++ replace SAMPLE (json_dumps default_sample) b)
            ++ build_page_from hostile_markup demo_suffix
       /\ contains SAMPLE
            (a ++ json_dumps default_sample
               ++ replace SAMPLE (json_dumps default_sample) b) = false.
Proof.
  split; [reflexivity|]. split; [reflexivity|].
  apply build_page_sample_inside_content; reflexivity.
Defined.

Lemma main_missing_file_witness :
  file {| file := Some (mkPath (lit "notes.tex"));
          text := Some (lit "x^2"); open := false |}
  = Some (mkPath (lit "notes.tex"))
  /\ w_is_file (demo_world (Ok true)) (mkPath (lit "notes.tex")) = false
  /\ load_latex {| file := Some (mkPath (lit "notes.tex"));
                   text := Some (lit "x^2"); open := false |}
       (demo_world (Ok true)) []
     = (Raise (FileNotFoundError (lit "No such file: notes.tex")),
        [EvIsFile (mkPath (lit "notes.tex"))])
  /\ main {| file := Some (mkPath (lit "notes.tex"));
             text := Some (lit "x^2"); open := false |}
       (demo_world (Ok true))
     = {| trace := [EvIsFile (mkPath (lit "notes.tex"));
                    EvPrintErr (lit "Error: No such file: notes.tex")];
          status := 1 |}.
Proof.
  split; [reflexivity|]. split; [reflexivity|].
  exact (main_missing_file (demo_world (Ok true))
           {| file := Some (mkPath (lit "notes.tex"));
              text := Some (lit "x^2"); open := false |}
           (mkPath (lit "notes.tex")) eq_refl eq_refl).
Defined.

Lemma load_latex_empty_text_witness :
  file {| file := None; text := Some []; open := false |} = None
  /\ text {| file := None; text := Some []; open := false |} = Some []
  /\ load_latex {| file := None; text := Some []; open := false |}
       (demo_world (Ok true)) []
     = (Ok (lit "x^2" ++ [newline]), [EvStdinRead]).
Proof.
  split; [reflexivity|]. split; [reflexivity|].
  exact (load_latex_empty_text (demo_world (Ok true))
           {| file := None; text := Some []; open := false |} []
           eq_refl eq_refl).
Defined.

Lemma main_launch_outcome_witness :
  load_latex demo_args (demo_world (Ok false)) [] = (Ok (lit "x^2"), [])
  /\ w_browser_open (demo_world (Ok false)) (lit "file:///tmp/tmpab12.html")
     = Ok false
  /\ main demo_args (demo_world (Ok false))
     = {| trace := [EvIsFile (mkPath (lit "/srv/index.html"));
                    EvReadText (mkPath (lit "/srv/index.html"));
                    EvTempFile;
                    EvWriteText (mkPath (lit "/tmp/tmpab12.html")) demo_html;
                    EvBrowserOpen (lit "file:///tmp/tmpab12.html");
                    EvPrintOut (lit "Preview written to /tmp/tmpab12.html")];
          status := 0 |}
  /\ w_browser_open
       (script_world (fun _ => true) (Ok demo_template) (Ok tt)
          (Raise (EnvError (lit "could not locate runnable browser"))))
       (lit "file:///tmp/tmpab12.html")
     = Raise (EnvError (lit "could not locate runnable browser"))
  /\ main demo_args
       (script_world (fun _ => true) (Ok demo_template) (Ok tt)
          (Raise (EnvError (lit "could not locate runnable browser"))))
     = {| trace := [EvIsFile (mkPath (lit "/srv/index.html"));
                    EvReadText (mkPath (lit "/srv/index.html"));
                    EvTempFile;
                    EvWriteText (mkPath (lit "/tmp/tmpab12.html")) demo_html;
                    EvBrowserOpen (lit "file:///tmp/tmpab12.html");
                    EvPrintErr
                      (lit "Error: could not locate runnable browser")];
          status := 1 |}.
Proof.
  split; [reflexivity|]. split; [reflexivity|].
  split.
  - exact (proj1 (main_launch_outcome (demo_world (Ok false)) demo_args
                    (lit "x^2") demo_template []
                    (mkPath (lit "/tmp/tmpab12.html"))
                    eq_refl eq_refl eq_refl eq_refl eq_refl eq_refl)
             false eq_refl).
  - split; [reflexivity|].
    exact (proj2 (main_launch_outcome
                    (script_world (fun _ => true) (Ok demo_template) (Ok tt)
                       (Raise (EnvError
                                 (lit "could not locate runnable browser"))))
                    demo_args (lit "x^2") demo_template []
                    (mkPath (lit "/tmp/tmpab12.html"))
                    eq_refl eq_refl eq_refl eq_refl eq_refl eq_refl)
             (EnvError (lit "could not locate runnable browser")) eq_refl).
Defined.

(** The page is written, then the launcher raises (as [webbrowser.open]
    does when the [BROWSER] variable has an unbalanced quote):
    [write_and_open] lets the exception through, the handler of [main]
    prints it, no location is reported and the status is 1. *)
Lemma main_launcher_raises :
  main demo_args (demo_world (Raise (EnvError (lit "No closing quotation"))))
  = {| trace := [EvIsFile (mkPath (lit "/srv/index.html"));
                 EvReadText (mkPath (lit "/srv/index.html"));
                 EvTempFile;
                 EvWriteText (mkPath (lit "/tmp/tmpab12.html")) demo_html;
                 EvBrowserOpen (lit "file:///tmp/tmpab12.html");
                 EvPrintErr (lit "Error: No closing quotation")];
       status := 1 |}.
Proof. vm_compute. reflexivity. Qed.

(** * Further properties of the script *)

(** * Blank input and outer white space *)

Lemma lstrip_spaces (l x : str) :
  forallb is_space l = true -> lstrip (l ++ x) = lstrip x.
Proof.
  induction l as [|c l IH]; intros H; [reflexivity|].
  cbn [forallb] in H. apply andb_true_iff in H. destruct H as [Hc Hl].
  cbn [app lstrip]. rewrite Hc. now apply IH.
Qed.

Lemma lstrip_app_nonempty (s r : str) :
  lstrip s <> [] -> lstrip (s ++ r) = lstrip s ++ r.
Proof.
  induction s as [|c s IH]; intros H; [now elim H|].
  cbn [app lstrip] in *. destruct (is_space c); [now apply IH | reflexivity].
Qed.

Lemma rstrip_spaces (x r : str) :
  forallb is_space r = true -> rstrip (x ++ r) = rstrip x.
Proof.
  intros H. unfold rstrip. rewrite rev_app_distr.
  now rewrite lstrip_spaces by (now rewrite forallb_rev).
Qed.

Lemma lstrip_nil_iff (s : str) :
  lstrip s = [] <-> forallb is_space s = true.
Proof.
  induction s as [|c s IH]; [split; reflexivity|].
  cbn [lstrip forallb]. destruct (is_space c); [exact IH|].
  split; discriminate.
Qed.

Lemma strip_nil_iff (s : str) :
  strip s = [] <-> forallb is_space s = true.
Proof.
  split.
  - intros E. destruct (strip_decomp s) as [l [r [Hs [Hl Hr]]]].
    rewrite E in Hs. rewrite Hs, !forallb_app, Hl, Hr. reflexivity.
  - intros H. unfold strip. apply lstrip_nil_iff in H. now rewrite H.
Qed.

Lemma strip_outer_space (l s r : str) :
  forallb is_space l = true -> forallb is_space r = true ->
  strip (l ++ s ++ r) = strip s.
Proof.
  intros Hl Hr. unfold strip. rewrite (lstrip_spaces l _ Hl).
  destruct (lstrip s) as [|c t] eqn:E.
  - apply lstrip_nil_iff in E.
    assert (forallb is_space (s ++ r) = true) as A
      by (now rewrite forallb_app, E, Hr).
    apply lstrip_nil_iff in A. now rewrite A.
  - rewrite lstrip_app_nonempty by (rewrite E; discriminate).
    rewrite E. now apply rstrip_spaces.
Qed.

(** X1.  [normalize_latex] returns the empty string exactly for the inputs
    made of white space only (the empty one among them). *)
Theorem normalize_latex_empty_iff (s : str) :
  normalize_latex s = [] <-> forallb is_space s = true.
Proof.
  rewrite <- strip_nil_iff.
  destruct (normalize_latex_cases s) as [[E N] | [[E [M N]] | [E [M N]]]];
    rewrite N.
  - now rewrite E.
  - tauto.
  - split; [discriminate | intros H; now elim E].
Qed.

(** X2.  What [normalize_latex] returns is empty or holds one of the five
    delimiter tokens. *)
Theorem normalize_latex_has_delimiter (s : str) :
  normalize_latex s = []
  \/ exists tok, In tok markers /\ occurs tok (normalize_latex s).
Proof.
  destruct (normalize_latex_cases s) as [[E N] | [[E [M N]] | [E [M N]]]];
    rewrite N.
  - now left.
  - right. apply existsb_exists in M. destruct M as [tok [Hin Hc]].
    exists tok. split; [exact Hin | now apply contains_spec].
  - right. exists (lit "$$"). split; [simpl; tauto|].
    exists [], ([newline] ++ strip s ++ [newline] ++ lit "$$"). reflexivity.
Qed.

(** X3.  White space around the input does not change the result of
    [normalize_latex]. *)
Theorem normalize_latex_outer_space (l s r : str) :
  forallb is_space l = true -> forallb is_space r = true ->
  normalize_latex (l ++ s ++ r) = normalize_latex s.
Proof.
  intros Hl Hr. unfold normalize_latex.
  now rewrite (strip_outer_space l s r Hl Hr).
Qed.

(** * What [json_dumps] writes *)

Lemma hexdigit_ascii (d : N) :
  d < 16 -> 32 <= hexdigit d /\ hexdigit d <= 126.
Proof. revert d. apply below_16; split; discriminate. Qed.

Lemma u_escape_ascii (n : N) :
  Forall (fun c => 32 <= c /\ c <= 126) (u_escape n).
Proof.
  unfold u_escape.
  repeat (constructor;
          [first [apply hexdigit_ascii, N.mod_lt; discriminate
                 | split; discriminate]|]).
  constructor.
Qed.

(** X4.  The text [json.dumps] makes of any string is printable ASCII: no
    newline, control character or character beyond [~] of the markup
    reaches the page as such. *)
Theorem json_dumps_ascii (s : str) :
  Forall (fun c => 32 <= c /\ c <= 126) (json_dumps s).
Proof.
  unfold json_dumps. apply Forall_app. split;
    [constructor; [split; discriminate | constructor]|].
  apply Forall_app. split;
    [|constructor; [split; discriminate | constructor]].
  induction s as [|c s IH]; [constructor|].
  cbn [flat_map]. apply Forall_app. split; [|exact IH].
  destruct (escape_char_shape c) as [k Hk| | |L].
  - short_cases Hk; repeat (constructor; [split; discriminate|]);
      constructor.
  - constructor; [now split | constructor].
  - apply u_escape_ascii.
  - apply Forall_app. split; apply u_escape_ascii.
Qed.

(** * Placeholders in the page *)

Lemma PRELOAD_no_quote : ~ In quote PRELOAD.
Proof. apply not_in_forallb. reflexivity. Qed.

Lemma PRELOAD_plain :
  forallb (fun c => negb (is_escape_output c)) PRELOAD = true.
Proof. reflexivity. Qed.

Lemma sample_body_no_PRELOAD : contains PRELOAD sample_body = false.
Proof. vm_compute. reflexivity. Qed.

Lemma straddles_app_r (x u v s : str) :
  straddles x (u ++ v) s = false -> straddles x v s = false.
Proof.
  induction u as [|c u IH]; intros H; [exact H|].
  change ((c :: u) ++ v) with (c :: u ++ v) in H. cbn [straddles] in H.
  apply orb_false_iff in H. now apply IH.
Qed.

(** A token that starts at one position only *)
Lemma occurrences_once_parts (x a b : str) :
  x <> [] -> occurrences x (a ++ x ++ b) = 1%nat ->
  contains x a = false
  /\ straddles x a (x ++ b) = false
  /\ contains x b = false.
Proof.
  intros Hne. induction a as [|c a IH]; intros H.
  - cbn [app] in H. split; [|split; [reflexivity|]].
    + simpl. rewrite orb_false_r. destruct x; [now elim Hne | reflexivity].
    + destruct x as [|o x']; [now elim Hne|].
      change ((o :: x') ++ b) with (o :: x' ++ b) in H. cbn [occurrences] in H.
      change (o :: x' ++ b) with ((o :: x') ++ b) in H.
      rewrite startswith_app in H.
      pose proof (occurrences_suffix (o :: x') x' b) as L.
      apply occurrences_zero. lia.
  - change ((c :: a) ++ x ++ b) with (c :: a ++ x ++ b) in H.
    cbn [occurrences] in H.
    assert (1 <= occurrences x (a ++ x ++ b))%nat as L.
    { pose proof (occurrences_suffix x a (x ++ b)) as L1.
      destruct (occurrences x (x ++ b)) eqn:Z; [|lia].
      apply occurrences_zero in Z. apply contains_false in Z.
      elim Z. exists [], b. reflexivity. }
    destruct (startswith x (c :: a ++ x ++ b)) eqn:E; [lia|].
    destruct (IH ltac:(lia)) as [Ha [Hs Hb]].
    split; [|split; [|exact Hb]].
    + cbn [contains]. rewrite Ha, orb_false_r.
      destruct (startswith x (c :: a)) eqn:Ea; [|reflexivity].
      apply (startswith_app_true _ _ (x ++ b)) in Ea. simpl in Ea, E.
      congruence.
    + cbn [straddles]. rewrite Hs, orb_false_r.
      change ((c :: a) ++ x ++ b) with (c :: a ++ x ++ b). rewrite E.
      apply andb_false_r.
Qed.

Lemma sample_substitution_complete (s : str) :
  contains SAMPLE (replace SAMPLE (json_dumps default_sample) s) = false.
Proof.
  change (json_dumps default_sample) with (quote :: sample_body ++ [quote]).
  apply replace_leaves_none.
  - exact SAMPLE_nonempty.
  - exact SAMPLE_no_quote.
  - exact sample_body_no_SAMPLE.
Qed.

(** X5.  Whatever the markup and the template, the page [build_page]
    returns holds no sample placeholder. *)
Theorem build_page_no_sample_left (m t : str) :
  contains SAMPLE (build_page_from m t) = false.
Proof.
  unfold build_page_from. apply sample_substitution_complete.
Qed.

(** X6.  When the markup does not spell the content placeholder, the page
    holds no content placeholder either. *)
Theorem build_page_no_preload_left (m t : str) :
  contains PRELOAD m = false ->
  contains PRELOAD (build_page_from m t) = false.
Proof.
  intros Hm. unfold build_page_from.
  change (json_dumps default_sample) with (quote :: sample_body ++ [quote]).
  apply contains_replace.
  - exact SAMPLE_nonempty.
  - exact PRELOAD_no_quote.
  - exact sample_body_no_PRELOAD.
  - rewrite json_dumps_delimited. apply replace_leaves_none.
    + exact PRELOAD_nonempty.
    + exact PRELOAD_no_quote.
    + apply contains_false. intros O. apply contains_false in Hm. apply Hm.
      now apply (occurs_escaped PRELOAD m PRELOAD_plain).
Qed.

(** X7.  A template with the content placeholder and, after it, the sample
    placeholder, each starting at one position only, and a markup that does
    not spell the sample placeholder: the page is the template with the
    encoded markup and the encoded sample in their places, the rest
    untouched. *)
Theorem build_page_fills_template (m pre mid post : str) :
  occurrences PRELOAD (pre ++ PRELOAD ++ mid ++ SAMPLE ++ post) = 1%nat ->
  occurrences SAMPLE (pre ++ PRELOAD ++ mid ++ SAMPLE ++ post) = 1%nat ->
  contains SAMPLE m = false ->
  build_page_from m (pre ++ PRELOAD ++ mid ++ SAMPLE ++ post)
  = pre ++ json_dumps m ++ mid ++ json_dumps default_sample ++ post.
Proof.
  intros HP HS Hm.
  destruct (occurrences_once_parts PRELOAD pre _ PRELOAD_nonempty HP)
    as [P1 [P2 P3]].
  assert (pre ++ PRELOAD ++ mid ++ SAMPLE ++ post
          = (pre ++ PRELOAD ++ mid) ++ SAMPLE ++ post) as E
    by (now rewrite <- !app_assoc).
  rewrite E in HS.
  destruct (occurrences_once_parts SAMPLE _ post SAMPLE_nonempty HS)
    as [S1 [S2 S3]].
  unfold build_page_from.
  rewrite (replace_app PRELOAD _ pre _ PRELOAD_nonempty P2).
  rewrite (replace_match PRELOAD _ _ PRELOAD_nonempty).
  rewrite (replace_absent PRELOAD _ pre PRELOAD_nonempty P1).
  rewrite (replace_absent PRELOAD _ _ PRELOAD_nonempty P3).
  set (J := json_dumps default_sample).
  rewrite (json_dumps_delimited m).
  rewrite (replace_app SAMPLE J pre _ SAMPLE_nonempty)
    by (apply straddles_sep_r, SAMPLE_no_quote).
  rewrite (replace_absent SAMPLE J pre SAMPLE_nonempty)
    by (now apply contains_app_l in S1).
  f_equal.
  change (quote :: flat_map escape_char m ++ [quote])
    with ((quote :: flat_map escape_char m) ++ [quote]).
  rewrite (replace_app SAMPLE J _ (mid ++ SAMPLE ++ post) SAMPLE_nonempty)
    by (apply straddles_sep_l, SAMPLE_no_quote).
  rewrite (replace_absent SAMPLE J ((quote :: _) ++ [quote]) SAMPLE_nonempty)
    by (apply (contains_SAMPLE_dumps m Hm)).
  f_equal.
  rewrite (replace_app SAMPLE J mid _ SAMPLE_nonempty).
  - rewrite (replace_match SAMPLE J post SAMPLE_nonempty).
    rewrite (replace_absent SAMPLE J mid SAMPLE_nonempty).
    + now rewrite (replace_absent SAMPLE J post SAMPLE_nonempty S3).
    + apply contains_app_r in S1. now apply contains_app_r in S1.
  - apply (straddles_app_r SAMPLE (pre ++ PRELOAD) mid).
    now rewrite <- app_assoc.
Qed.

(** * Runs of the script *)

Ltac unfold_script :=
  unfold main, main_io, try_except, main_try, load_latex, build_page,
    write_and_open, bind, ret, raise, is_file, read_text, stdin_read,
    named_temporary_file, write_text, as_uri, webbrowser_open, print_out,
    print_err, call.

(** Every answer of the environment, one case each *)
Ltac split_answers :=
  repeat match goal with
         | |- context [match negb ?b with _ => _ end] =>
             destruct b eqn:?; cbn [negb]
         | |- context [match ?x with _ => _ end] =>
             lazymatch x with
             | context [match _ with _ => _ end] => fail
             | _ => destruct x eqn:?
             end
         end;
  repeat match goal with u : unit |- _ => destruct u end;
  cbn [negb trace status fst snd].

(** [load_latex] only asks for the file and reads: it adds no other
    event. *)
Lemma load_latex_events (args : Namespace) (w : World) (tr0 : list event) :
  exists evs,
    snd (load_latex args w tr0) = tr0 ++ evs /\ Forall input_event evs.
Proof.
  unfold load_latex, bind, ret, raise, is_file, read_text, stdin_read, call.
  split_answers.
  all: first [ exists []; split; [now rewrite app_nil_r | constructor]
             | eexists; split;
               [rewrite <- ?app_assoc; reflexivity
               | repeat constructor] ].
Qed.

Ltac main_cases args w raw e tr Hl :=
  unfold main, main_io, try_except, main_try, bind;
  let evs := fresh "evs" in
  let Hev := fresh "Hev" in
  let Hin := fresh "Hinput" in
  destruct (load_latex_events args w []) as [evs [Hev Hin]];
  destruct (load_latex args w []) as [[raw|e] tr] eqn:Hl;
  cbn [snd app] in Hev; subst tr;
  unfold build_page, write_and_open, bind, ret, raise, is_file, read_text,
    named_temporary_file, write_text, as_uri, webbrowser_open, print_out,
    print_err, call;
  split_answers; rewrite <- ?app_assoc; cbn [app].

(** Membership in a trace [evs ++ a :: b :: ...] whose head [evs] comes
    from [load_latex] *)
Ltac in_trace H Hinput :=
  apply in_app_or in H;
  destruct H as [H|H];
  [ let K := fresh "K" in
    pose proof (proj1 (Forall_forall _ _) Hinput _ H) as K;
    try contradiction
  | cbn [In] in H;
    repeat (destruct H as [H|H]; [try discriminate H|]);
    try contradiction ].

(** X8.  Without a file and without a non-empty text, [load_latex] reads
    standard input once; it returns the empty string when what it read is
    blank and what it read, unchanged, otherwise; either way the result
    normalises as the input read does. *)
Theorem load_latex_stdin_normalized
  (w : World) (args : Namespace) (tr : list event) (data : str) :
  file args = None -> (text args = None \/ text args = Some []) ->
  w_stdin w = Ok data ->
  load_latex args w tr
  = (Ok (if forallb is_space data then [] else data), tr ++ [EvStdinRead])
  /\ normalize_latex (if forallb is_space data then [] else data)
     = normalize_latex data.
Proof.
  intros Hf Ht Hs. unfold load_latex. rewrite Hf.
  assert (forall k : IO str,
             match text args with
             | Some (c :: t) => ret (c :: t)
             | _ => k
             end = k) as E by (intros k; destruct Ht as [-> | ->]; reflexivity).
  rewrite E. unfold bind, stdin_read, call, ret. rewrite Hs.
  destruct (forallb is_space data) eqn:B.
  - pose proof (proj2 (strip_nil_iff data) B) as S. rewrite S.
    split; [reflexivity|]. unfold normalize_latex. now rewrite S.
  - destruct (strip data) as [|c t] eqn:S.
    + apply strip_nil_iff in S. congruence.
    + split; reflexivity.
Qed.

(** X9.  With a file argument or a non-empty text argument [load_latex]
    does not read standard input; a non-empty text without a file is
    returned as it is, with no call of the environment at all. *)
Theorem load_latex_stdin_untouched
  (w : World) (args : Namespace) (tr : list event) :
  (file args <> None \/ exists c t, text args = Some (c :: t)) ->
  ~ In EvStdinRead tr ->
  ~ In EvStdinRead (snd (load_latex args w tr))
  /\ (forall c t,
        file args = None -> text args = Some (c :: t) ->
        load_latex args w tr = (Ok (c :: t), tr)).
Proof.
  intros H Htr. unfold load_latex.
  destruct (file args) as [p|] eqn:Hf.
  - split; [|discriminate].
    unfold bind, is_file, call, raise, read_text.
    destruct (w_is_file w p); cbn [negb snd]; intros Hin;
      repeat (apply in_app_or in Hin; destruct Hin as [Hin|Hin];
              [|simpl in Hin; destruct Hin as [Hin|[]]; discriminate]);
      contradiction.
  - destruct H as [H | [c [t Ht]]]; [now elim H|].
    rewrite Ht. split; [exact Htr|].
    intros c' t' _ E. now injection E as <- <-.
Qed.

(** X10.  When the input is loaded and the template is not a file, the run
    prints the template error and exits with status 1; no temporary file is
    made, nothing is written or launched. *)
Theorem main_template_missing
  (w : World) (args : Namespace) (raw : str) (tr : list event) :
  load_latex args w [] = (Ok raw, tr) ->
  w_is_file w (w_template_path w) = false ->
  main args w
  = {| trace :=
         tr ++ [EvIsFile (w_template_path w);
                EvPrintErr (lit "Error: Template not found: "
                            ++ path_str (w_template_path w))];
       status := 1 |}.
Proof.
  intros Hl Hi. unfold main, main_io, try_except, main_try, bind. rewrite Hl.
  unfold is_file, call. rewrite Hi. cbn [negb raise].
  unfold print_err, call. rewrite <- !app_assoc. reflexivity.
Qed.

(** X11.  When the input file exists and reading it raises, the run prints
    that error and exits with status 1 without looking at the template. *)
Theorem main_input_unreadable
  (w : World) (args : Namespace) (p : Path) (e : exn) :
  file args = Some p -> w_is_file w p = true -> w_read_text w p = Raise e ->
  main args w
  = {| trace := [EvIsFile p; EvReadText p;
                 EvPrintErr (lit "Error: " ++ exn_str e)];
       status := 1 |}.
Proof.
  intros Hf Hi Hr. unfold_script. rewrite Hf, Hi. cbn [negb]. rewrite Hr.
  reflexivity.
Qed.

(** X12.  When writing the page raises, the run prints that error and
    exits with status 1; the viewer is not launched, whatever [open] is,
    and no location is reported. *)
Theorem main_write_fails
  (w : World) (args : Namespace) (raw template : str) (tr : list event)
  (path : Path) (e : exn) :
  load_latex args w [] = (Ok raw, tr) ->
  w_is_file w (w_template_path w) = true ->
  w_read_text w (w_template_path w) = Ok template ->
  w_tempfile w = Ok path ->
  w_write_text w path (build_page_from (normalize_latex raw) template)
  = Raise e ->
  main args w
  = {| trace :=
         tr ++ [EvIsFile (w_template_path w);
                EvReadText (w_template_path w);
                EvTempFile;
                EvWriteText path
                  (build_page_from (normalize_latex raw) template);
                EvPrintErr (lit "Error: " ++ exn_str e)];
       status := 1 |}.
Proof.
  intros Hl Hi Hr Ht Hw.
  unfold main, main_io, try_except, main_try, bind. rewrite Hl.
  unfold is_file, call. rewrite Hi. cbn [negb ret].
  unfold build_page, bind, read_text, call, ret. rewrite Hr.
  unfold write_and_open, bind, named_temporary_file, write_text, call.
  rewrite Ht, Hw.
  unfold print_err, call. rewrite <- !app_assoc. reflexivity.
Qed.

(** X13.  Without [--open], a run in which every call succeeds writes the
    page built from the normalised input and the template, reports its
    location, launches nothing and exits with status 0. *)
Theorem main_without_open
  (w : World) (args : Namespace) (raw template : str) (tr : list event)
  (path : Path) :
  load_latex args w [] = (Ok raw, tr) ->
  w_is_file w (w_template_path w) = true ->
  w_read_text w (w_template_path w) = Ok template ->
  w_tempfile w = Ok path ->
  w_write_text w path (build_page_from (normalize_latex raw) template)
  = Ok tt ->
  open args = false ->
  main args w
  = {| trace :=
         tr ++ [EvIsFile (w_template_path w);
                EvReadText (w_template_path w);
                EvTempFile;
                EvWriteText path
                  (build_page_from (normalize_latex raw) template);
                EvPrintOut (lit "Preview written to " ++ path_str path)];
       status := 0 |}.
Proof.
  intros Hl Hi Hr Ht Hw Ho.
  unfold main, main_io, try_except, main_try, bind. rewrite Hl.
  unfold is_file, call. rewrite Hi. cbn [negb ret].
  unfold build_page, bind, read_text, call, ret. rewrite Hr.
  unfold write_and_open, bind, named_temporary_file, write_text, call.
  rewrite Ht, Hw, Ho.
  unfold ret, print_out, call. rewrite <- !app_assoc. reflexivity.
Qed.


(** X15.  In a run that launches the viewer, [--open] is set and the launch
    is the only one of the run: it directly follows the successful write
    of the page and is on the location of that page; no launch comes
    before the write or after that one. *)
Theorem main_launch_after_write
  (args : Namespace) (w : World) (uri : str) :
  In (EvBrowserOpen uri) (trace (main args w)) ->
  open args = true
  /\ exists path html,
       w_tempfile w = Ok path
       /\ w_write_text w path html = Ok tt
       /\ uri = w_as_uri w path
       /\ exists before after,
            trace (main args w)
            = before ++ [EvWriteText path html; EvBrowserOpen uri] ++ after
            /\ (forall u, ~ In (EvBrowserOpen u) before)
            /\ (forall u, ~ In (EvBrowserOpen u) after).
Proof.
  main_cases args w raw e tr Hl.
  all: intros Hin; in_trace Hin Hinput.
  all: injection Hin as <-; (split; [reflexivity|]).
  all: match goal with
       | Hw : w_write_text _ ?p ?h = Ok tt
         |- context [?evs ++ ?a :: ?b :: ?c :: EvWriteText ?p ?h :: ?B :: ?r] =>
           exists p, h; split; [reflexivity|]; split; [exact Hw|];
             split; [reflexivity|];
             exists (evs ++ [a; b; c]), r;
             split; [now rewrite <- app_assoc|]
       end.
  all: split; intros u Hu.
  all: first [ in_trace Hu Hinput
             | cbn [In] in Hu; destruct Hu as [Hu|[]]; discriminate Hu ].
Qed.

(** X16.  Whatever a run writes goes to the temporary file and is the page
    built from the normalised input and the template read; it holds no
    sample placeholder. *)
Theorem main_written_page
  (args : Namespace) (w : World) (p : Path) (html : str) :
  In (EvWriteText p html) (trace (main args w)) ->
  w_tempfile w = Ok p
  /\ w_is_file w (w_template_path w) = true
  /\ exists raw template tr,
       load_latex args w [] = (Ok raw, tr)
       /\ w_read_text w (w_template_path w) = Ok template
       /\ html = build_page_from (normalize_latex raw) template
       /\ contains SAMPLE html = false.
Proof.
  main_cases args w raw e tr Hl.
  all: intros Hin; in_trace Hin Hinput.
  all: injection Hin as <- <-; (split; [reflexivity|]);
    (split; [reflexivity|]).
  all: eexists; eexists; eexists; (split; [reflexivity|]);
    (split; [reflexivity|]); (split; [reflexivity|]);
    apply sample_substitution_complete.
Qed.

Lemma normalize_latex_outer_space_witness :
  forallb is_space (lit "  " ++ [newline]) = true
  /\ forallb is_space [9; 160] = true
  /\ normalize_latex ((lit "  " ++ [newline]) ++ lit "x^2" ++ [9; 160])
     = normalize_latex (lit "x^2").
Proof.
  split; [reflexivity|]. split; [reflexivity|].
  apply normalize_latex_outer_space; reflexivity.
Defined.

Lemma build_page_no_preload_left_witness :
  contains PRELOAD quoted_markup = false
  /\ contains PRELOAD (build_page_from quoted_markup demo_template) = false.
Proof.
  split; [reflexivity|]. apply build_page_no_preload_left. reflexivity.
Defined.

Lemma build_page_fills_template_witness :
  occurrences PRELOAD
    (demo_prefix ++ PRELOAD ++ lit "; const sample = " ++ SAMPLE
     ++ lit ";</script>") = 1%nat
  /\ occurrences SAMPLE
       (demo_prefix ++ PRELOAD ++ lit "; const sample = " ++ SAMPLE
        ++ lit ";</script>") = 1%nat
  /\ contains SAMPLE quoted_markup = false
  /\ build_page_from quoted_markup
       (demo_prefix ++ PRELOAD ++ lit "; const sample = " ++ SAMPLE
        ++ lit ";</script>")
     = demo_prefix ++ json_dumps quoted_markup ++ lit "; const sample = "
       ++ json_dumps default_sample ++ lit ";</script>".
Proof.
  split; [vm_compute; reflexivity|].
  split; [vm_compute; reflexivity|].
  split; [reflexivity|].
  apply build_page_fills_template; vm_compute; reflexivity.
Defined.

Lemma load_latex_stdin_normalized_witness :
  (file stdin_args = None
   /\ w_stdin (script_world (fun _ => true) (Ok demo_template) (Ok tt)
                 (Ok true))
      = Ok (lit "  " ++ [newline])
   /\ load_latex stdin_args
        (script_world (fun _ => true) (Ok demo_template) (Ok tt) (Ok true)) []
      = (Ok [], [EvStdinRead]))
  /\ (w_stdin (demo_world (Ok true)) = Ok (lit "x^2" ++ [newline])
      /\ load_latex stdin_args (demo_world (Ok true)) []
         = (Ok (lit "x^2" ++ [newline]), [EvStdinRead])).
Proof.
  split.
  - split; [reflexivity|]. split; [reflexivity|].
    exact (proj1 (load_latex_stdin_normalized
                    (script_world (fun _ => true) (Ok demo_template) (Ok tt)
                       (Ok true))
                    stdin_args [] (lit "  " ++ [newline])
                    eq_refl (or_introl eq_refl) eq_refl)).
  - split; [reflexivity|].
    exact (proj1 (load_latex_stdin_normalized (demo_world (Ok true))
                    stdin_args [] (lit "x^2" ++ [newline])
                    eq_refl (or_introl eq_refl) eq_refl)).
Defined.

Lemma load_latex_stdin_untouched_witness :
  (file demo_args <> None \/ exists c t, text demo_args = Some (c :: t))
  /\ ~ In EvStdinRead []
  /\ ~ In EvStdinRead (snd (load_latex demo_args (demo_world (Ok true)) []))
  /\ (forall c t,
        file demo_args = None -> text demo_args = Some (c :: t) ->
        load_latex demo_args (demo_world (Ok true)) [] = (Ok (c :: t), [])).
Proof.
  assert (file demo_args <> None
          \/ exists c t, text demo_args = Some (c :: t)) as H.
  { right. exists 120, (lit "^2"). reflexivity. }
  split; [exact H|]. split; [intros []|].
  apply load_latex_stdin_untouched; [exact H | intros []].
Defined.

Lemma main_template_missing_witness :
  load_latex demo_args
    (script_world (fun _ => false) (Ok demo_template) (Ok tt) (Ok true)) []
  = (Ok (lit "x^2"), [])
  /\ main demo_args
       (script_world (fun _ => false) (Ok demo_template) (Ok tt) (Ok true))
     = {| trace := [EvIsFile (mkPath (lit "/srv/index.html"));
                    EvPrintErr
                      (lit "Error: Template not found: /srv/index.html")];
          status := 1 |}.
Proof.
  split; [reflexivity|].
  exact (main_template_missing
           (script_world (fun _ => false) (Ok demo_template) (Ok tt) (Ok true))
           demo_args (lit "x^2") [] eq_refl eq_refl).
Defined.

Lemma main_input_unreadable_witness :
  file file_args = Some (mkPath (lit "notes.tex"))
  /\ main file_args
       (script_world (fun _ => true)
          (Raise (EnvError (lit "invalid start byte"))) (Ok tt) (Ok true))
     = {| trace := [EvIsFile (mkPath (lit "notes.tex"));
                    EvReadText (mkPath (lit "notes.tex"));
                    EvPrintErr (lit "Error: invalid start byte")];
          status := 1 |}.
Proof.
  split; [reflexivity|].
  exact (main_input_unreadable
           (script_world (fun _ => true)
              (Raise (EnvError (lit "invalid start byte"))) (Ok tt) (Ok true))
           file_args (mkPath (lit "notes.tex"))
           (EnvError (lit "invalid start byte")) eq_refl eq_refl eq_refl).
Defined.

Lemma main_write_fails_witness :
  load_latex demo_args
    (script_world (fun _ => true) (Ok demo_template)
       (Raise (EnvError (lit "No space left on device"))) (Ok true)) []
  = (Ok (lit "x^2"), [])
  /\ main demo_args
       (script_world (fun _ => true) (Ok demo_template)
          (Raise (EnvError (lit "No space left on device"))) (Ok true))
     = {| trace := [EvIsFile (mkPath (lit "/srv/index.html"));
                    EvReadText (mkPath (lit "/srv/index.html"));
                    EvTempFile;
                    EvWriteText (mkPath (lit "/tmp/tmpab12.html")) demo_html;
                    EvPrintErr (lit "Error: No space left on device")];
          status := 1 |}.
Proof.
  split; [reflexivity|].
  exact (main_write_fails
           (script_world (fun _ => true) (Ok demo_template)
              (Raise (EnvError (lit "No space left on device"))) (Ok true))
           demo_args (lit "x^2") demo_template []
           (mkPath (lit "/tmp/tmpab12.html"))
           (EnvError (lit "No space left on device"))
           eq_refl eq_refl eq_refl eq_refl eq_refl).
Defined.

Lemma main_without_open_witness :
  load_latex stdin_args (demo_world (Ok true)) []
  = (Ok (lit "x^2" ++ [newline]), [EvStdinRead])
  /\ open stdin_args = false
  /\ main stdin_args (demo_world (Ok true))
     = {| trace := [EvStdinRead;
                    EvIsFile (mkPath (lit "/srv/index.html"));
                    EvReadText (mkPath (lit "/srv/index.html"));
                    EvTempFile;
                    EvWriteText (mkPath (lit "/tmp/tmpab12.html")) demo_html;
                    EvPrintOut (lit "Preview written to /tmp/tmpab12.html")];
          status := 0 |}.
Proof.
  split; [reflexivity|]. split; [reflexivity|].
  exact (main_without_open (demo_world (Ok true)) stdin_args
           (lit "x^2" ++ [newline]) demo_template [EvStdinRead]
           (mkPath (lit "/tmp/tmpab12.html"))
           eq_refl eq_refl eq_refl eq_refl eq_refl eq_refl).
Defined.

Lemma main_launch_after_write_witness :
  In (EvBrowserOpen (lit "file:///tmp/tmpab12.html"))
     (trace (main demo_args (demo_world (Ok true))))
  /\ open demo_args = true
  /\ exists path html,
       w_tempfile (demo_world (Ok true)) = Ok path
       /\ w_write_text (demo_world (Ok true)) path html = Ok tt
       /\ lit "file:///tmp/tmpab12.html" = w_as_uri (demo_world (Ok true)) path
       /\ exists before after,
            trace (main demo_args (demo_world (Ok true)))
            = before
              ++ [EvWriteText path html;
                  EvBrowserOpen (lit "file:///tmp/tmpab12.html")]
              ++ after
            /\ (forall u, ~ In (EvBrowserOpen u) before)
            /\ (forall u, ~ In (EvBrowserOpen u) after).
Proof.
  assert (In (EvBrowserOpen (lit "file:///tmp/tmpab12.html"))
             (trace (main demo_args (demo_world (Ok true))))) as H
    by (vm_compute; tauto).
  split; [exact H|].
  exact (main_launch_after_write demo_args (demo_world (Ok true)) _ H).
Defined.

Lemma main_written_page_witness :
  In (EvWriteText (mkPath (lit "/tmp/tmpab12.html")) demo_html)
     (trace (main demo_args (demo_world (Ok true))))
  /\ w_tempfile (demo_world (Ok true)) = Ok (mkPath (lit "/tmp/tmpab12.html"))
  /\ w_is_file (demo_world (Ok true))
       (w_template_path (demo_world (Ok true))) = true
  /\ exists raw template tr,
       load_latex demo_args (demo_world (Ok true)) [] = (Ok raw, tr)
       /\ w_read_text (demo_world (Ok true))
            (w_template_path (demo_world (Ok true))) = Ok template
       /\ demo_html = build_page_from (normalize_latex raw) template
       /\ contains SAMPLE demo_html = false.
Proof.
  assert (In (EvWriteText (mkPath (lit "/tmp/tmpab12.html")) demo_html)
             (trace (main demo_args (demo_world (Ok true))))) as H
    by (vm_compute; tauto).
  split; [exact H|].
  exact (main_written_page demo_args (demo_world (Ok true)) _ _ H).
Defined.
